(** * Product Manual Assistant: the knowledge pipeline of [script.js]

  A shallow embedding of the text pipeline of [script.js]:
  [extractStructuredText] (geometric text reconstruction), [callScaleDown]
  and the compression loop of [extractKnowledge], [parseJSONFromResponse],
  [processStructuredKnowledge], and the intent detection and context
  assembly of [handleChat].

  Conventions of the model.
  - A JavaScript string is a [string] whose characters are the code units
    0..255 (the Latin-1 range); [length] is the JavaScript [length].
  - Page coordinates and widths are integers ([Z]); JSON numbers are exact
    decimals.
  - A function that may throw returns a [result]; the mutable [state] of the
    script is passed explicitly. *)

From Stdlib Require Import ZArith List String Ascii Bool Lia.
From Stdlib Require Import Permutation Sorted DecimalString.
Import ListNotations.

Local Open Scope string_scope.
Local Open Scope Z_scope.

(* ========================================================================= *)
(** ** String primitives of the host *)
(* ========================================================================= *)

Module JsString.

(** White space as matched by [\s] and stripped by [trim]: TAB, LF, VT, FF,
    CR, SPACE and NBSP (the members of the class below U+0100). *)
Definition isSpace (c : ascii) : bool :=
  let n := nat_of_ascii c in
  (((9 <=? n) && (n <=? 13)) || (n =? 32) || (n =? 160))%nat.

Definition isEmpty (s : string) : bool :=
  match s with EmptyString => true | String _ _ => false end.

Fixpoint trimStart (s : string) : string :=
  match s with
  | EmptyString => EmptyString
  | String c r => if isSpace c then trimStart r else s
  end.

Fixpoint trimEnd (s : string) : string :=
  match s with
  | EmptyString => EmptyString
  | String c r =>
      let r' := trimEnd r in
      if isSpace c && isEmpty r' then EmptyString else String c r'
  end.

(** [s.trim()] *)
Definition trim (s : string) : string := trimEnd (trimStart s).

(** [s.replace(/\s+/g, " ")]: every maximal run of white space becomes one
    space.  [inRun] tells that the previous character was white space. *)
Fixpoint collapseFrom (inRun : bool) (s : string) : string :=
  match s with
  | EmptyString => EmptyString
  | String c r =>
      if isSpace c
      then (if inRun then collapseFrom true r
            else String " " (collapseFrom true r))
      else String c (collapseFrom false r)
  end.

Definition collapseWs (s : string) : string := collapseFrom false s.

(** [s.toLowerCase()] on the Latin-1 range, where the host maps code unit
    to code unit: the letters A-Z and U+00C0-U+00DE but U+00D7 move up by
    32.  The casings of the host that change the length of a text or depend
    on the neighbouring letters (U+0130, the final sigma) start above this
    range; a property that needs lower-casing to go unit by unit is stated
    for ASCII text. *)
Definition lowerChar (c : ascii) : ascii :=
  let n := nat_of_ascii c in
  if (((65 <=? n) && (n <=? 90))
      || ((192 <=? n) && (n <=? 222) && negb (n =? 215)))%nat
  then ascii_of_nat (n + 32) else c.

Fixpoint toLowerCase (s : string) : string :=
  match s with
  | EmptyString => EmptyString
  | String c r => String (lowerChar c) (toLowerCase r)
  end.

(** [s.startsWith(p)] *)
Fixpoint startsWith (p s : string) : bool :=
  match p, s with
  | EmptyString, _ => true
  | String _ _, EmptyString => false
  | String a p', String b s' => Ascii.eqb a b && startsWith p' s'
  end.

(** [s.includes(p)], also the test [s.match(/p/)] for a literal [p]. *)
Fixpoint includes (p s : string) : bool :=
  startsWith p s ||
  match s with
  | EmptyString => false
  | String _ r => includes p r
  end.

(** [s.indexOf(p)], [None] for -1. *)
Fixpoint indexOf (p s : string) : option nat :=
  if startsWith p s then Some O
  else match s with
       | EmptyString => None
       | String _ r => option_map S (indexOf p r)
       end.

(** [s.lastIndexOf(p)], [None] for -1. *)
Fixpoint lastIndexOf (p s : string) : option nat :=
  match s with
  | EmptyString => if startsWith p s then Some O else None
  | String _ r =>
      match lastIndexOf p r with
      | Some i => Some (S i)
      | None => if startsWith p s then Some O else None
      end
  end.

(** [s.slice(n)] for [0 <= n]. *)
Fixpoint dropChars (n : nat) (s : string) : string :=
  match n, s with
  | O, _ => s
  | S _, EmptyString => EmptyString
  | S n', String _ r => dropChars n' r
  end.

(** The first [n] characters, as taken by [substring]. *)
Fixpoint takeChars (n : nat) (s : string) : string :=
  match n, s with
  | O, _ => EmptyString
  | S _, EmptyString => EmptyString
  | S n', String c r => String c (takeChars n' r)
  end.

(** [s.substring(0, n)] for a numeric bound. *)
Fixpoint substringTo (n : Z) (s : string) : string :=
  match s with
  | EmptyString => EmptyString
  | String c r => if n <=? 0 then EmptyString else String c (substringTo (n - 1) r)
  end.

(** [s.slice(0, -n)] *)
Definition dropLast (n : nat) (s : string) : string :=
  takeChars (String.length s - n) s.

(** [s.endsWith(p)] *)
Definition endsWith (p s : string) : bool :=
  (String.length p <=? String.length s)%nat
  && String.eqb (dropChars (String.length s - String.length p) s) p.

(** [parts.join(sep)] on an array of strings. *)
Definition join (sep : string) (parts : list string) : string :=
  String.concat sep parts.

(** The line feed, as a string. *)
Definition newline : string := String (ascii_of_nat 10) EmptyString.

(** The double quote character. *)
Definition dquote : ascii := ascii_of_nat 34.

(** Decimal rendering of an integer, as in a template literal. *)
Definition ofZ (z : Z) : string := NilEmpty.string_of_int (Z.to_int z).

(** White space occurs only as single spaces. *)
Fixpoint collapsedFrom (inRun : bool) (s : string) : Prop :=
  match s with
  | EmptyString => True
  | String c r =>
      if isSpace c
      then c = " "%char /\ inRun = false /\ collapsedFrom true r
      else collapsedFrom false r
  end.

End JsString.

(* ========================================================================= *)
(** ** Text Structurer: [extractStructuredText] *)
(* ========================================================================= *)

Module TextStructurer.
Import JsString.

(** A text item of the PDF parser.  [str] is absent on marked-content
    items; [transform] holds [translateX] and [translateY], the entries 4
    and 5 of the matrix. *)
Record TextItem := mkTextItem {
  str : option string;
  transform : option (Z * Z);
  width : option Z
}.

(** An entry of a row: [{ x, text, width }]. *)
Record RowItem := mkRowItem {
  ri_x : Z;
  ri_text : string;
  ri_width : Z
}.

(** A row: [{ y, items }]. *)
Record Row := mkRow {
  row_y : Z;
  row_items : list RowItem
}.

Definition rowTolerance : Z := 8.

(** [rows.find((row) => Math.abs(row.y - y) < rowTolerance)] followed by the
    push onto the found row, or the push of a new row. *)
Fixpoint placeInRows (rows : list Row) (y : Z) (it : RowItem) : list Row :=
  match rows with
  | [] => [mkRow y [it]]
  | r :: rs =>
      if Z.abs (row_y r - y) <? rowTolerance
      then mkRow (row_y r) (row_items r ++ [it]) :: rs
      else r :: placeInRows rs y it
  end.

(** The position and payload read from one item, [None] when the item is
    skipped ([!item.str]). *)
Definition fragmentOf (height : Z) (item : TextItem) : option (Z * RowItem) :=
  match str item with
  | None => None
  | Some text =>
      if isEmpty text then None
      else
        let x := match transform item with Some (tx, _) => tx | None => 0 end in
        let y := match transform item with
                 | Some (_, ty) => height - ty
                 | None => 0
                 end in
        let w := match width item with Some w => w | None => 0 end in
        Some (y, mkRowItem x text w)
  end.

(** The body of [items.forEach] of the clustering pass. *)
Definition addItem (height : Z) (rows : list Row) (item : TextItem)
  : list Row :=
  match fragmentOf height item with
  | None => rows
  | Some (y, it) => placeInRows rows y it
  end.

Definition clusterRows (height : Z) (items : list TextItem) : list Row :=
  fold_left (addItem height) items [].

(** [Array.prototype.sort] with a comparator [(a, b) => key a - key b]:
    a stable sort by [key]. *)
Section Sort.
Context {A : Type} (key : A -> Z).

Fixpoint insertBy (a : A) (l : list A) : list A :=
  match l with
  | [] => [a]
  | b :: t => if key a <=? key b then a :: l else b :: insertBy a t
  end.

Definition sortBy (l : list A) : list A := fold_right insertBy [] l.

(** The order the sort establishes. *)
Definition keyLe (a b : A) : Prop := key a <= key b.
End Sort.

(** [item.width || item.text.length * 5] *)
Definition effWidth (it : RowItem) : Z :=
  if ri_width it =? 0
  then Z.of_nat (String.length (ri_text it)) * 5
  else ri_width it.

(** The separator pushed before an item, given [lastX] and [lastWidth]. *)
Definition separator (lastX lastWidth x : Z) : list string :=
  if lastX >=? 0 then
    let gap := x - (lastX + lastWidth) in
    if gap >? 15 then [" | "]
    else if gap >? 2 then [" "]
    else []
  else [].

(** The body of [row.items.forEach] of the line builder; the result is
    [lineItems]. *)
Fixpoint lineItems (lastX lastWidth : Z) (items : list RowItem)
  : list string :=
  match items with
  | [] => []
  | it :: rest =>
      separator lastX lastWidth (ri_x it)
        ++ ri_text it :: lineItems (ri_x it) (effWidth it) rest
  end.

Definition buildLine (row : Row) : string :=
  trim (join "" (lineItems (-1) 0 (row_items row))).

Definition sortedRows (height : Z) (items : list TextItem) : list Row :=
  map (fun r => mkRow (row_y r) (sortBy ri_x (row_items r)))
      (sortBy row_y (clusterRows height items)).

Definition extractStructuredText (items : list TextItem) (height : Z)
  : string :=
  match items with
  | [] => ""
  | _ =>
      let lines := map buildLine (sortedRows height items) in
      join newline
        (map (fun line => trim (collapseWs line))
             (filter (fun line => negb (isEmpty line)) lines))
  end.

(** *** Notions used to state the properties of the structurer *)

(** Two ordinates fall in one row of the clustering. *)
Definition near (a b : Z) : bool := Z.abs (a - b) <? rowTolerance.

(** The fragments the clustering pass places, in input order, each with
    its ordinate. *)
Definition fragments (height : Z) (items : list TextItem)
  : list (Z * RowItem) :=
  flat_map (fun item => match fragmentOf height item with
                        | Some f => [f]
                        | None => []
                        end) items.

(** No fragment bridges two rows: being within the tolerance is
    transitive on the ordinates of the fragments. *)
Definition rowsUnambiguous (F : list (Z * RowItem)) : bool :=
  forallb (fun p =>
    forallb (fun q =>
      forallb (fun r =>
        implb (near (fst p) (fst q) && near (fst q) (fst r))
              (near (fst p) (fst r))) F) F) F.

Definition RowItem_eqb (a b : RowItem) : bool :=
  (ri_x a =? ri_x b) && String.eqb (ri_text a) (ri_text b)
  && (ri_width a =? ri_width b).

(** Two fragments of one row at the same abscissa are the same fragment. *)
Definition abscissasDistinct (F : list (Z * RowItem)) : bool :=
  forallb (fun p =>
    forallb (fun q =>
      implb (near (fst p) (fst q) && (ri_x (snd p) =? ri_x (snd q)))
            (RowItem_eqb (snd p) (snd q))) F) F.

(** The separator of the specification, by the gap. *)
Definition statedSeparator (gap : Z) : list string :=
  if gap <=? 2 then []
  else if gap <=? 15 then [" "]
  else [" | "].

(** *** Notions used in the proofs about the structurer *)

(** The clustering step on a fragment. *)
Definition place (rows : list Row) (f : Z * RowItem) : list Row :=
  placeInRows rows (fst f) (snd f).

(** The items of the fragments within the tolerance of [y], in input
    order. *)
Definition itemsNear (y : Z) (F : list (Z * RowItem)) : list RowItem :=
  map snd (filter (fun p => near y (fst p)) F).

(** The row around [y] over the fragments [F]. *)
Definition rowOf (F : list (Z * RowItem)) (y : Z) : Row :=
  mkRow y (itemsNear y F).

(** Being within the tolerance is transitive on the ordinates [L]. *)
Definition transitiveOn (L : list Z) : Prop :=
  forall a b c, In a L -> In b L -> In c L ->
    near a b = true -> near b c = true -> near a c = true.

(** The line built from the items of a row. *)
Definition lineOf (its : list RowItem) : string :=
  trim (join "" (lineItems (-1) 0 its)).

(** The reference ordinates [Ys] of the rows of the fragments [F]: each
    is the ordinate of a fragment, every fragment is near one of them, and
    no two of them are near each other. *)
Record clustered (F : list (Z * RowItem)) (Ys : list Z) : Prop := {
  cl_in : forall a, In a Ys -> In a (map fst F);
  cl_cover : forall p, In p F -> exists a, In a Ys /\ near a (fst p) = true;
  cl_nodup : NoDup Ys;
  cl_apart : forall a b, In a Ys -> In b Ys -> near a b = true -> a = b
}.

(** Rows at least the tolerance apart, in ascending order. *)
Definition gapLt (a b : Z) : Prop := a + 8 <= b.

(** The sorted content of the row around [y]. *)
Definition rowContent (F : list (Z * RowItem)) (y : Z) : list RowItem :=
  sortBy ri_x (itemsNear y F).

(** Two fragments of one row at the same abscissa carry the same item. *)
Definition sameAbscissaSameItem (F : list (Z * RowItem)) : Prop :=
  forall p q, In p F -> In q F -> near (fst p) (fst q) = true ->
              ri_x (snd p) = ri_x (snd q) -> snd p = snd q.

End TextStructurer.

(* ========================================================================= *)
(** ** JSON values and the host's [JSON] object *)
(* ========================================================================= *)

Module Json.
Import JsString.

(** A parsed JSON value.  [JNum m e] is the decimal number [m / 10^e],
    kept normal ([e = 0] or [m] not divisible by 10).  [JObj] lists the own
    properties of the object in enumeration order. *)
#[warnings="-register-all"]
Inductive JSON : Type :=
| JNull
| JBool (b : bool)
| JNum (m : Z) (e : nat)
| JStr (s : string)
| JArr (elems : list JSON)
| JObj (props : list (string * JSON)).

Definition JInt (n : Z) : JSON := JNum n 0.

(** Errors are values: [Throw msg] stands for a thrown [Error]. *)
Inductive result (A : Type) : Type :=
| Ok (a : A)
| Throw (msg : string).
Arguments Ok {A} a.
Arguments Throw {A} msg.

(** Truthiness of a value, as tested by [!v] and [v || d]. *)
Definition truthy (v : JSON) : bool :=
  match v with
  | JNull => false
  | JBool b => b
  | JNum m _ => negb (m =? 0)
  | JStr s => negb (isEmpty s)
  | JArr _ => true
  | JObj _ => true
  end.

Fixpoint lookup (k : string) (props : list (string * JSON)) : option JSON :=
  match props with
  | [] => None
  | (k', v) :: rest => if String.eqb k k' then Some v else lookup k rest
  end.

(** [v[k]] for a key [k] that is neither an index nor [length]:
    [None] is [undefined]; only objects have such properties.  The access
    throws on [null]; callers test for [JNull] first. *)
Definition getProp (v : JSON) (k : string) : option JSON :=
  match v with
  | JObj props => lookup k props
  | _ => None
  end.

Fixpoint zeros (n : nat) : string :=
  match n with O => "" | S n' => String "0" (zeros n') end.

(** [String(n)] for a number in the plain decimal range. *)
Definition numToStr (m : Z) (e : nat) : string :=
  match e with
  | O => ofZ m
  | _ =>
      let digits := ofZ (Z.abs m) in
      let padded := zeros (S e - String.length digits) ++ digits in
      let cut := (String.length padded - e)%nat in
      (if m <? 0 then "-" else "")
        ++ takeChars cut padded ++ "." ++ dropChars cut padded
  end.

(** [String(v)], the conversion used by template literals and by [join]. *)
Fixpoint toStr (v : JSON) : string :=
  match v with
  | JNull => "null"
  | JBool true => "true"
  | JBool false => "false"
  | JNum m e => numToStr m e
  | JStr s => s
  | JArr l =>
      join "," (map (fun x => match x with JNull => "" | _ => toStr x end) l)
  | JObj _ => "[object Object]"
  end.

(** [arr.join(sep)] *)
Definition joinArr (sep : string) (l : list JSON) : string :=
  join sep (map (fun x => match x with JNull => "" | _ => toStr x end) l).

Definition hexDigit (n : nat) : ascii :=
  ascii_of_nat (if (n <? 10)%nat then 48 + n else 87 + n).

(** The escape of one character inside a JSON string literal. *)
Definition quoteChar (c : ascii) : string :=
  let n := nat_of_ascii c in
  if (n =? 34)%nat then String "\" (String dquote "")
  else if (n =? 92)%nat then "\\"
  else if (n =? 8)%nat then "\b"
  else if (n =? 12)%nat then "\f"
  else if (n =? 10)%nat then "\n"
  else if (n =? 13)%nat then "\r"
  else if (n =? 9)%nat then "\t"
  else if (n <? 32)%nat
       then "\u00" ++ String (hexDigit (n / 16)) (String (hexDigit (n mod 16)) "")
  else String c "".

Fixpoint quoteBody (s : string) : string :=
  match s with
  | EmptyString => ""
  | String c r => quoteChar c ++ quoteBody r
  end.

Definition quote (s : string) : string :=
  String dquote (quoteBody s) ++ String dquote "".

(** [JSON.stringify(v)] without indentation. *)
Fixpoint stringify (v : JSON) : string :=
  match v with
  | JNull => "null"
  | JBool true => "true"
  | JBool false => "false"
  | JNum m e => numToStr m e
  | JStr s => quote s
  | JArr l => "[" ++ join "," (map stringify l) ++ "]"
  | JObj ps =>
      "{" ++ join "," (map (fun kv => quote (fst kv) ++ ":" ++ stringify (snd kv)) ps)
          ++ "}"
  end.

(** *** [JSON.parse] *)

Definition isJsonWs (c : ascii) : bool :=
  let n := nat_of_ascii c in
  ((n =? 32) || (n =? 9) || (n =? 10) || (n =? 13))%nat.

Fixpoint skipWs (s : string) : string :=
  match s with
  | EmptyString => EmptyString
  | String c r => if isJsonWs c then skipWs r else s
  end.

Definition isDigit (c : ascii) : bool :=
  let n := nat_of_ascii c in ((48 <=? n) && (n <=? 57))%nat.

Definition digitVal (c : ascii) : Z := Z.of_nat (nat_of_ascii c) - 48.

(** Reads a maximal run of digits into the accumulator; returns the value,
    the number of digits read and the rest. *)
Fixpoint readDigits (acc : Z) (count : nat) (s : string)
  : Z * nat * string :=
  match s with
  | String c r =>
      if isDigit c then readDigits (10 * acc + digitVal c) (S count) r
      else (acc, count, s)
  | EmptyString => (acc, count, s)
  end.

Fixpoint normNum (m : Z) (e : nat) : Z * nat :=
  match e with
  | O => (m, O)
  | S e' => if m mod 10 =? 0 then normNum (m / 10) e' else (m, e)
  end.

(** The value [m * 10^x] as a normal [JNum]. *)
Definition mkNum (m x : Z) : JSON :=
  if 0 <=? x then JNum (m * 10 ^ x) 0
  else let (m', e') := normNum m (Z.to_nat (- x)) in JNum m' e'.

(** A number literal: an optional minus sign, an integer part without
    leading zero, an optional fraction and an optional exponent. *)
Definition parseNumber (s : string) : option (JSON * string) :=
  let (neg, s1) :=
    match s with
    | String "-" r => (true, r)
    | _ => (false, s)
    end in
  let intPart :=
    match s1 with
    | String "0" r => Some (0, r)
    | String c _ => if isDigit c then
                      let '(v, _, r) := readDigits 0 0 s1 in Some (v, r)
                    else None
    | EmptyString => None
    end in
  match intPart with
  | None => None
  | Some (iv, s2) =>
      let frac :=
        match s2 with
        | String "." r =>
            let '(v, n, r') := readDigits iv 0 r in
            if (n =? 0)%nat then None else Some (v, n, r')
        | _ => Some (iv, O, s2)
        end in
      match frac with
      | None => None
      | Some (mv, nfrac, s3) =>
          let expo :=
            match s3 with
            | String c r =>
                if (Ascii.eqb c "e" || Ascii.eqb c "E")%bool then
                  let (eneg, r1) :=
                    match r with
                    | String "-" r' => (true, r')
                    | String "+" r' => (false, r')
                    | _ => (false, r)
                    end in
                  let '(v, n, r2) := readDigits 0 0 r1 in
                  if (n =? 0)%nat then None
                  else Some (if eneg then - v else v, r2)
                else Some (0, s3)
            | EmptyString => Some (0, s3)
            end in
          match expo with
          | None => None
          | Some (ev, s4) =>
              Some (mkNum (if neg then - mv else mv) (ev - Z.of_nat nfrac), s4)
          end
      end
  end.

Definition hexVal (c : ascii) : option nat :=
  let n := nat_of_ascii c in
  if ((48 <=? n) && (n <=? 57))%nat then Some (n - 48)%nat
  else if ((97 <=? n) && (n <=? 102))%nat then Some (n - 87)%nat
  else if ((65 <=? n) && (n <=? 70))%nat then Some (n - 55)%nat
  else None.

(** The body of a string literal, after the opening quote.  Control
    characters are refused; [\uXXXX] denotes a code unit of the modelled
    range. *)
Fixpoint parseStringBody (s : string) : option (string * string) :=
  let cons c res :=
    match res with
    | Some (body, rest) => Some (String c body, rest)
    | None => None
    end in
  match s with
  | EmptyString => None
  | String c r =>
      if Ascii.eqb c dquote then Some ("", r)
      else if (nat_of_ascii c <? 32)%nat then None
      else if Ascii.eqb c "\" then
        match r with
        | String "\" r' => cons "\"%char (parseStringBody r')
        | String "/" r' => cons "/"%char (parseStringBody r')
        | String "b" r' => cons (ascii_of_nat 8) (parseStringBody r')
        | String "f" r' => cons (ascii_of_nat 12) (parseStringBody r')
        | String "n" r' => cons (ascii_of_nat 10) (parseStringBody r')
        | String "r" r' => cons (ascii_of_nat 13) (parseStringBody r')
        | String "t" r' => cons (ascii_of_nat 9) (parseStringBody r')
        | String "u" (String h1 (String h2 (String h3 (String h4 r')))) =>
            match hexVal h1, hexVal h2, hexVal h3, hexVal h4 with
            | Some 0%nat, Some 0%nat, Some a, Some b =>
                cons (ascii_of_nat (16 * a + b)) (parseStringBody r')
            | _, _, _, _ => None
            end
        | String e r' =>
            if Ascii.eqb e dquote then cons dquote (parseStringBody r')
            else None
        | EmptyString => None
        end
      else cons c (parseStringBody r)
  end.

(** Array indices come first in the enumeration order of an object. *)
Definition isIndexKey (k : string) : bool :=
  match k with
  | EmptyString => false
  | String "0" EmptyString => true
  | String "0" _ => false
  | String _ _ =>
      let '(v, n, r) := readDigits 0 0 k in
      isEmpty r && (v <=? 4294967294)
  end.

Definition indexOfKey (k : string) : Z := fst (fst (readDigits 0 0 k)).

Fixpoint insertIndexKey (k : string) (v : JSON) (ps : list (string * JSON))
  : list (string * JSON) :=
  match ps with
  | [] => [(k, v)]
  | (k', v') :: rest =>
      if isIndexKey k' && (indexOfKey k' <? indexOfKey k)
      then (k', v') :: insertIndexKey k v rest
      else (k, v) :: ps
  end.

Fixpoint replaceKey (k : string) (v : JSON) (ps : list (string * JSON))
  : list (string * JSON) :=
  match ps with
  | [] => []
  | (k', v') :: rest =>
      if String.eqb k k' then (k', v) :: rest
      else (k', v') :: replaceKey k v rest
  end.

(** [obj[k] = v] *)
Definition setProp (k : string) (v : JSON) (ps : list (string * JSON))
  : list (string * JSON) :=
  match lookup k ps with
  | Some _ => replaceKey k v ps
  | None => if isIndexKey k then insertIndexKey k v ps else ps ++ [(k, v)]
  end.

Fixpoint parseValue (fuel : nat) (s : string) : option (JSON * string) :=
  match fuel with
  | O => None
  | S fuel' =>
      match skipWs s with
      | EmptyString => None
      | String c r =>
          if Ascii.eqb c "{" then
            match skipWs r with
            | String "}" r' => Some (JObj [], r')
            | _ =>
                match parseMembers fuel' [] r with
                | Some (ps, r') => Some (JObj ps, r')
                | None => None
                end
            end
          else if Ascii.eqb c "[" then
            match skipWs r with
            | String "]" r' => Some (JArr [], r')
            | _ =>
                match parseElements fuel' r with
                | Some (vs, r') => Some (JArr vs, r')
                | None => None
                end
            end
          else if Ascii.eqb c dquote then
            match parseStringBody r with
            | Some (body, r') => Some (JStr body, r')
            | None => None
            end
          else if (Ascii.eqb c "-" || isDigit c)%bool then
            parseNumber (String c r)
          else if startsWith "true" (String c r) then
            Some (JBool true, dropChars 4 (String c r))
          else if startsWith "false" (String c r) then
            Some (JBool false, dropChars 5 (String c r))
          else if startsWith "null" (String c r) then
            Some (JNull, dropChars 4 (String c r))
          else None
      end
  end
with parseElements (fuel : nat) (s : string)
  : option (list JSON * string) :=
  match fuel with
  | O => None
  | S fuel' =>
      match parseValue fuel' s with
      | Some (v, r) =>
          match skipWs r with
          | String "," r' =>
              match parseElements fuel' r' with
              | Some (vs, r'') => Some (v :: vs, r'')
              | None => None
              end
          | String "]" r' => Some ([v], r')
          | _ => None
          end
      | None => None
      end
  end
with parseMembers (fuel : nat) (acc : list (string * JSON)) (s : string)
  : option (list (string * JSON) * string) :=
  match fuel with
  | O => None
  | S fuel' =>
      match skipWs s with
      | String q r =>
          if negb (Ascii.eqb q dquote) then None else
          match parseStringBody r with
          | Some (k, r1) =>
              match skipWs r1 with
              | String ":" r2 =>
                  match parseValue fuel' r2 with
                  | Some (v, r3) =>
                      match skipWs r3 with
                      | String "," r4 => parseMembers fuel' (setProp k v acc) r4
                      | String "}" r4 => Some (setProp k v acc, r4)
                      | _ => None
                      end
                  | None => None
                  end
              | _ => None
              end
          | None => None
          end
      | _ => None
      end
  end.

(** [JSON.parse(text)]; [None] is a thrown [SyntaxError].  Every recursive
    call follows the consumption of a character, so twice the length of the
    text bounds the depth. *)
Definition JSON_parse (text : string) : option JSON :=
  match parseValue (2 * String.length text + 2) text with
  | Some (v, rest) => if isEmpty (skipWs rest) then Some v else None
  | None => None
  end.

End Json.

(* ========================================================================= *)
(** ** Compression Adapter: [callScaleDown] and the page loop of
     [extractKnowledge] *)
(* ========================================================================= *)

Module Compression.
Import JsString Json.

(** A page record; [imageSrc] and [links] are not read by the pipeline. *)
Record Page := mkPage {
  pageNum : Z;
  text : string
}.

(** An entry of [compressedPages]: [{ page, text }]. *)
Record CompressedPage := mkCompressed {
  cp_page : Z;
  cp_text : string
}.

(** The body of the POST request; [rate] is in hundredths. *)
Record Request := mkRequest {
  req_context : string;
  req_prompt : string;
  req_model : string;
  req_rate : Z
}.

(** The JSON body of a 2xx answer, as far as [callScaleDown] reads it:
    [data.results?.compressed_prompt] and [data.compressed_prompt], each a
    string when present. *)
Record Body := mkBody {
  results_compressed_prompt : option string;
  compressed_prompt : option string
}.

(** What one [fetch] of the service does: the promise rejects, or a
    response arrives with a status and a body; [None] is a body on which
    [res.json()] rejects. *)
Inductive FetchOutcome : Type :=
| NetworkError
| Response (status : Z) (body : option Body).

(** The service, seen from the script: its answer to a request, given the
    requests received before. *)
Definition Service : Type := list Request -> Request -> FetchOutcome.

(** [res.ok] *)
Definition statusOk (status : Z) : bool := (200 <=? status) && (status <=? 299).

(** The transport and service errors: a rejected fetch, a status outside
    2xx other than 401 and 403, an unreadable body. *)
Definition transportError (o : FetchOutcome) : bool :=
  match o with
  | NetworkError => true
  | Response status body =>
      if statusOk status
      then match body with None => true | Some _ => false end
      else negb ((status =? 401) || (status =? 403))
  end.

Definition nonEmpty (o : option string) : option string :=
  match o with
  | Some s => if isEmpty s then None else Some s
  | None => None
  end.

(** The [try] block of [callScaleDown]. *)
Definition scaleDownTry (o : FetchOutcome) : result string :=
  match o with
  | NetworkError => Throw "Failed to fetch"
  | Response status body =>
      if negb (statusOk status) then
        if (status =? 401) || (status =? 403) then Ok "Invalid ScaleDown Key"
        else Throw ("ScaleDown API Error: " ++ ofZ status)
      else
        match body with
        | None => Throw "Unexpected token"
        | Some data =>
            match nonEmpty (results_compressed_prompt data) with
            | Some s => Ok s
            | None =>
                match nonEmpty (compressed_prompt data) with
                | Some s => Ok s
                | None => Ok "No relevant summary found."
                end
            end
        end
  end.

(** [callScaleDown(context, prompt, model, rate)] with the key of the state;
    the log of the requests sent is threaded through. *)
Definition callScaleDown (apiKey : string) (svc : Service)
    (log : list Request) (req : Request) : string * list Request :=
  if isEmpty apiKey then ("Summarization unavailable", log)
  else
    match scaleDownTry (svc log req) with
    | Ok s => (s, (log ++ [req])%list)
    | Throw _ => ("ScaleDown Connection Failed", (log ++ [req])%list)
    end.

(** The instruction sent with every page (its first line; the service
    alone reads it). *)
Definition cleaningPrompt : string :=
  "Clean and format this product manual page while preserving ALMOST ALL (95%+) of the content.".

(** The test that guards [compressedPages.push({ ..., text: summary })]. *)
Definition accepted (summary : string) : bool :=
  negb (isEmpty summary)
  && (10 <? String.length summary)%nat
  && negb (includes "unavailable" summary)
  && negb (includes "Invalid" summary).

(** One iteration of the [for] loop over the pages.  [callScaleDown]
    catches its own errors, so the [catch] of the loop body is never
    entered. *)
Definition compressPage (apiKey model : string) (svc : Service)
    (st : list CompressedPage * list Request) (page : Page)
  : list CompressedPage * list Request :=
  let (compressedPages, log) := st in
  if (String.length (text page) <? 50)%nat then
    if (0 <? String.length (trim (text page)))%nat
    then ((compressedPages ++ [mkCompressed (pageNum page) (text page)])%list,
          log)
    else (compressedPages, log)
  else
    let (summary, log') :=
      callScaleDown apiKey svc log
        (mkRequest (text page) cleaningPrompt model 95) in
    if accepted summary
    then ((compressedPages ++ [mkCompressed (pageNum page) summary])%list,
          log')
    else ((compressedPages ++ [mkCompressed (pageNum page) (text page)])%list,
          log').

Definition compressLoop (apiKey model : string) (svc : Service)
    (st : list CompressedPage * list Request) (pages : list Page)
  : list CompressedPage * list Request :=
  fold_left (compressPage apiKey model svc) pages st.

(** The prompt body: [[PAGE n]:] blocks joined by blank lines. *)
Definition pagesContext (compressedPages : list CompressedPage) : string :=
  join (newline ++ newline)
    (map (fun p => "[PAGE " ++ ofZ (cp_page p) ++ "]:" ++ newline ++ cp_text p)
         compressedPages).

(** The entry a page contributes when compression acts as the identity. *)
Definition identityEntry (p : Page) : list CompressedPage :=
  if (String.length (text p) <? 50)%nat
     && negb (0 <? String.length (trim (text p)))%nat
  then [] else [mkCompressed (pageNum p) (text p)].

End Compression.

(* ========================================================================= *)
(** ** Categorization Normalizer: [parseJSONFromResponse],
     [processStructuredKnowledge] and the categorize step of
     [extractKnowledge] *)
(* ========================================================================= *)

Module Categorizer.
Import JsString Json.

(** *** The repair ladder *)

Definition fence : string := "```".
Definition jsonFence : string := "```json".

(** The trimming and fence removal at the head of
    [parseJSONFromResponse]. *)
Definition stripFences (response : string) : string :=
  let cleaned := trim response in
  let cleaned :=
    if startsWith jsonFence cleaned then dropChars 7 cleaned
    else if startsWith fence cleaned then dropChars 3 cleaned
    else cleaned in
  let cleaned :=
    if endsWith fence cleaned then dropLast 3 cleaned else cleaned in
  trim cleaned.

Definition isLineTerminator (c : ascii) : bool :=
  let n := nat_of_ascii c in ((n =? 10) || (n =? 13))%nat.

(** The first repair: a line feed is replaced by a backslash and an [n]
    when a quote follows it somewhere, and the last quote before it is
    preceded, on the line of that quote, by a quote and a colon.  This is
    the look-behind and look-ahead of the pattern, read off the text in one
    pass: [prevQuote] tells that the previous character is a quote,
    [sinceColon] that a quote and a colon were seen with no line terminator
    since, [lastQuoteOk] that [sinceColon] held at the last quote. *)
Fixpoint fixNewlinesFrom (prevQuote sinceColon lastQuoteOk : bool)
    (s : string) : string :=
  match s with
  | EmptyString => EmptyString
  | String c r =>
      let isQ := Ascii.eqb c dquote in
      let sinceColon' :=
        if isLineTerminator c then false
        else sinceColon || (Ascii.eqb c ":" && prevQuote) in
      let lastQuoteOk' := if isQ then sinceColon else lastQuoteOk in
      let rest := fixNewlinesFrom isQ sinceColon' lastQuoteOk' r in
      if Ascii.eqb c (ascii_of_nat 10) && lastQuoteOk
         && includes (String dquote "") r
      then String "\" (String "n" rest)
      else String c rest
  end.

Definition fixNewlines (s : string) : string :=
  fixNewlinesFrom false false false s.

(** The text continues with white space and a closing bracket. *)
Definition closesAfterWs (s : string) : bool :=
  match trimStart s with
  | String c _ => Ascii.eqb c "}" || Ascii.eqb c "]"
  | EmptyString => false
  end.

(** The second repair: a comma before a closing bracket is dropped. *)
Fixpoint fixTrailingCommas (s : string) : string :=
  match s with
  | EmptyString => EmptyString
  | String c r =>
      if Ascii.eqb c "," && closesAfterWs r then fixTrailingCommas r
      else String c (fixTrailingCommas r)
  end.

(** The third repair: single quotes become double quotes. *)
Fixpoint fixSingleQuotes (s : string) : string :=
  match s with
  | EmptyString => EmptyString
  | String c r =>
      String (if Ascii.eqb c "'" then dquote else c) (fixSingleQuotes r)
  end.

Definition repair (jsonStr : string) : string :=
  fixSingleQuotes (fixTrailingCommas (fixNewlines jsonStr)).

Definition noObjectMsg : string := "No valid JSON object found in response".
Definition unparsableMsg : string := "Could not parse JSON from response: ".

(** [parseJSONFromResponse(response)] *)
Definition parseJSONFromResponse (response : string) : result JSON :=
  let cleaned := stripFences response in
  match JSON_parse cleaned with
  | Some v => Ok v
  | None =>
      match indexOf "{" cleaned, lastIndexOf "}" cleaned with
      | Some firstBrace, Some lastBrace =>
          if (lastBrace <=? firstBrace)%nat then Throw noObjectMsg
          else
            let jsonStr :=
              takeChars (lastBrace + 1 - firstBrace)
                        (dropChars firstBrace cleaned) in
            match JSON_parse jsonStr with
            | Some v => Ok v
            | None =>
                match JSON_parse (repair jsonStr) with
                | Some v => Ok v
                | None => Throw unparsableMsg
                end
            end
      | _, _ => Throw noObjectMsg
      end
  end.

(** *** Normalization *)

Inductive Category : Type :=
| safety | parts | warranty | procedures | errors | video.

Definition Category_eqb (a b : Category) : bool :=
  match a, b with
  | safety, safety | parts, parts | warranty, warranty
  | procedures, procedures | errors, errors | video, video => true
  | _, _ => false
  end.

(** [Object.keys(CATEGORIES)] *)
Definition CATEGORIES : list Category :=
  [safety; parts; warranty; procedures; errors; video].

Definition keyOf (c : Category) : string :=
  match c with
  | safety => "safety"
  | parts => "parts"
  | warranty => "warranty"
  | procedures => "procedures"
  | errors => "errors"
  | video => "video"
  end.

(** A stored item [{ page, text }]; [page] is whatever truthy value the
    categorizer gave, else 0. *)
Record KnowledgeItem := mkItem {
  page : JSON;
  text : string
}.

(** [state.knowledgeBuckets]: the keys in insertion order. *)
Definition Buckets : Type := list (Category * list KnowledgeItem).

Fixpoint getBucket (b : Buckets) (c : Category) : option (list KnowledgeItem) :=
  match b with
  | [] => None
  | (c', items) :: rest => if Category_eqb c c' then Some items else getBucket rest c
  end.

(** [buckets[key] = items] *)
Fixpoint setBucket (c : Category) (items : list KnowledgeItem) (b : Buckets)
  : Buckets :=
  match b with
  | [] => [(c, items)]
  | (c', old) :: rest =>
      if Category_eqb c c' then (c', items) :: rest
      else (c', old) :: setBucket c items rest
  end.

(** [x.replace(/\s+/g, " ").trim()] *)
Definition clean (s : string) : string := trim (collapseWs s).

(** [isPlaceholderText(t)] *)
Definition isPlaceholderText (t : string) : bool :=
  if isEmpty t then true
  else
    let cleaned := clean t in
    if isEmpty cleaned then true
    else
      let lc := toLowerCase cleaned in
      if String.eqb lc "none" || String.eqb lc "n/a"
         || String.eqb lc "na" || String.eqb lc "-" then true
      else if startsWith "no " lc || startsWith "none " lc
              || startsWith "please visit" lc then true
      else (String.length cleaned <? 3)%nat.

Fixpoint indexed {A : Type} (f : A -> JSON) (i : Z) (l : list A)
  : list (string * JSON) :=
  match l with
  | [] => []
  | a :: rest => (ofZ i, f a) :: indexed f (i + 1) rest
  end.

(** [Object.entries(i)] *)
Definition entries (i : JSON) : list (string * JSON) :=
  match i with
  | JObj ps => ps
  | JArr l => indexed (fun v => v) 0 l
  | JStr s => indexed (fun c => JStr (String c "")) 0 (list_ascii_of_string s)
  | _ => []
  end.

(** The callback of [Object.entries(i).forEach]: what it pushes on
    [parts]. *)
Definition entryPart (kv : string * JSON) : list string :=
  let (k, v) := kv in
  if String.eqb k "page" then []
  else
    match v with
    | JStr s =>
        if (0 <? String.length (trim s))%nat then [k ++ ": " ++ s] else []
    | JArr [] => [k ++ ": " ++ stringify v]
    | JArr l => [k ++ ": " ++ joinArr ", " l]
    | JObj _ => [k ++ ": " ++ stringify v]
    | _ => []
    end.

(** The callback of [items.forEach]: the item pushed on [normalized], if
    any.  Reading a property of [null] throws. *)
Definition normalizeItem (i : JSON) : result (option KnowledgeItem) :=
  match i with
  | JNull => Throw "Cannot read properties of null"
  | _ =>
      let page :=
        match getProp i "page" with
        | Some v => if truthy v then v else JInt 0
        | None => JInt 0
        end in
      let text :=
        match getProp i "text" with
        | Some (JStr s) => s
        | _ => join " | " (flat_map entryPart (entries i))
        end in
      let cleaned := clean text in
      if isPlaceholderText cleaned then Ok None
      else Ok (Some (mkItem page cleaned))
  end.

Fixpoint normalizeItems (items : list JSON) : result (list KnowledgeItem) :=
  match items with
  | [] => Ok []
  | i :: rest =>
      match normalizeItem i with
      | Throw m => Throw m
      | Ok o =>
          match normalizeItems rest with
          | Throw m => Throw m
          | Ok l => Ok (match o with Some it => it :: l | None => l end)
          end
      end
  end.

(** The callback of [Object.keys(CATEGORIES).forEach] up to the final
    store: the [normalized] array of one key ([[]] when the callback
    returns early).  A truthy [data[key]] that is not an array has no
    [forEach]. *)
Definition normalizeCategory (data : JSON) (key : Category)
  : result (list KnowledgeItem) :=
  match data with
  | JNull => Throw "Cannot read properties of null"
  | _ =>
      let items :=
        match getProp data (keyOf key) with
        | Some v => if truthy v then v else JArr []
        | None => JArr []
        end in
      match items with
      | JArr l => normalizeItems l
      | JObj ps =>
          match lookup "length" ps with
          | Some (JNum 0 _) => Ok []
          | _ => Throw "items.forEach is not a function"
          end
      | _ => Throw "items.forEach is not a function"
      end
  end.

(** The loop over the category keys, on the buckets built so far; it stops
    where a callback throws. *)
Fixpoint processKeys (keys : list Category) (data : JSON) (buckets : Buckets)
  : Buckets * result unit :=
  match keys with
  | [] => (buckets, Ok tt)
  | key :: rest =>
      match normalizeCategory data key with
      | Throw m => (buckets, Throw m)
      | Ok [] => processKeys rest data buckets
      | Ok normalized => processKeys rest data (setBucket key normalized buckets)
      end
  end.

(** [processStructuredKnowledge(data)]: the buckets it leaves in the state
    and whether it returned.  Its first statement empties the buckets, so
    the result does not depend on the previous ones. *)
Definition processStructuredKnowledge (data : JSON) : Buckets * result unit :=
  processKeys CATEGORIES data [].

(** *** The categorize step of [extractKnowledge] *)

Record State := mkState {
  scaledownKey : string;
  scaledownModel : string;
  geminiKey : string;
  pdfPages : list Compression.Page;
  knowledgeBuckets : Buckets;
  isProcessing : bool
}.

Definition withBuckets (st : State) (b : Buckets) : State :=
  mkState (scaledownKey st) (scaledownModel st) (geminiKey st)
          (pdfPages st) b (isProcessing st).

Definition withProcessing (st : State) (f : bool) : State :=
  mkState (scaledownKey st) (scaledownModel st) (geminiKey st)
          (pdfPages st) (knowledgeBuckets st) f.

(** What one call of the language model does: the fetch rejects, or a
    response arrives; [g_text] is the text of the first part of the first
    candidate, [None] when that structure is missing. *)
Inductive GeminiOutcome : Type :=
| GNetworkError
| GResponse (ok : bool) (g_text : option string).

(** The model, seen from the script: the outcome of a call with a prompt,
    in JSON mode or not. *)
Definition Gemini : Type := bool -> string -> GeminiOutcome.

(** [callGemini(prompt)] *)
Definition callGemini (key : string) (llm : Gemini) (prompt : string)
  : result string :=
  if isEmpty key then Ok "Please configure API Keys."
  else
    match llm false prompt with
    | GResponse true (Some t) => Ok t
    | GResponse true None => Throw "Invalid API response structure"
    | GResponse false _ => Throw "Gemini API Error"
    | GNetworkError => Throw "Failed to fetch"
    end.

(** [callGeminiJSON(prompt)] *)
Definition callGeminiJSON (key : string) (llm : Gemini) (prompt : string)
  : result JSON :=
  if isEmpty key then Throw "Please configure API Keys."
  else
    match llm true prompt with
    | GResponse true (Some t) =>
        match JSON_parse t with
        | Some v => Ok v
        | None => Throw "Unexpected token"
        end
    | GResponse true None => Throw "Invalid API response structure"
    | GResponse false _ => Throw "Gemini API Error"
    | GNetworkError => Throw "Failed to fetch"
    end.

(** The JSON-mode call and its fallback. *)
Definition fetchStructuredData (key : string) (llm : Gemini) (fullPrompt : string)
  : result JSON :=
  match callGeminiJSON key llm fullPrompt with
  | Ok v => Ok v
  | Throw _ =>
      match callGemini key llm fullPrompt with
      | Ok rawResponse => parseJSONFromResponse rawResponse
      | Throw m => Throw m
      end
  end.

(** The loop that makes every category exist:
    [if (!structuredData[cat]) structuredData[cat] = []].  Reading a property
    of [null] throws.  Only an object keeps the assignment observably: on an
    array the new property is the empty array that the normalization
    substitutes anyway, and on a string, number or boolean the assignment of
    a classic script is ignored. *)
Definition ensureCategories (structuredData : JSON) : result JSON :=
  match structuredData with
  | JNull => Throw "Cannot read properties of null"
  | JObj ps =>
      Ok (JObj (fold_left
                  (fun ps cat =>
                     match lookup (keyOf cat) ps with
                     | Some v => if truthy v then ps
                                 else setProp (keyOf cat) (JArr []) ps
                     | None => setProp (keyOf cat) (JArr []) ps
                     end)
                  CATEGORIES ps))
  | v => Ok v
  end.

(** The instruction that precedes the manual content (its first line; the
    model alone reads it). *)
Definition systemPrompt : string :=
  "You are a product manual categorizer. Extract and SPLIT content from each page into the CORRECT categories.".

Definition fullPromptOf (compressedPages : list Compression.CompressedPage)
  : string :=
  systemPrompt ++ newline ++ newline ++ "MANUAL CONTENT:" ++ newline
    ++ Compression.pagesContext compressedPages.

(** The categorize step: from the structured-data request to the end of
    [extractKnowledge], on the state as the [try] block and its [catch]
    leave it.  The second component tells whether the [try] block ran to
    its end. *)
Definition categorize (st : State) (llm : Gemini)
    (compressedPages : list Compression.CompressedPage)
  : State * result unit :=
  let outcome :=
    match fetchStructuredData (geminiKey st) llm (fullPromptOf compressedPages) with
    | Throw m => (st, Throw m)
    | Ok structuredData =>
        match ensureCategories structuredData with
        | Throw m => (st, Throw m)
        | Ok data =>
            let (b, r) := processStructuredKnowledge data in
            (withBuckets st b, r)
        end
    end in
  (withProcessing (fst outcome) false, snd outcome).

(** [extractKnowledge(pages)]: the state it leaves, the requests it sent to
    the compression service and whether the [try] block ran to its end. *)
Definition extractKnowledge (st : State) (svc : Compression.Service)
    (llm : Gemini) (pages : list Compression.Page)
  : State * list Compression.Request * result unit :=
  let st1 := withProcessing st true in
  let (compressedPages, log) :=
    Compression.compressLoop (scaledownKey st1) (scaledownModel st1) svc
                             ([], []) pages in
  let (st2, r) := categorize st1 llm compressedPages in
  (st2, log, r).

(** *** Notions and sample data used to state the properties *)

(** What the specification asks of a stored text. *)
Definition meaningful (t : string) : Prop :=
  clean t = t
  /\ t <> ""
  /\ (forall w, In w ["none"; "n/a"; "na"; "-"] ->
                t <> w /\ toLowerCase t <> w)
  /\ (forall p, In p ["no "; "none "; "please visit"] ->
                startsWith p t = false /\ startsWith p (toLowerCase t) = false)
  /\ (3 <= String.length (clean t))%nat.

(** Every bucket is non-empty and holds meaningful texts. *)
Definition wellFormed (b : Buckets) : Prop :=
  forall c items, In (c, items) b ->
                  items <> [] /\ Forall (fun it => meaningful (text it)) items.

(** The two items of the specification's normalization example. *)
Definition itemNA : JSON := JObj [("page", JInt 1); ("text", JStr "N/A")].
Definition itemOk : JSON := JObj [("page", JInt 1); ("text", JStr "  ok value  ")].

(** The object, and the texts that the repair ladder must read as it. *)
Definition objA1 : JSON := JObj [("a", JInt 1)].
Definition textA1 : string := "{" ++ quote "a" ++ ":1}".
Definition fencedA1 : string :=
  jsonFence ++ newline ++ textA1 ++ newline ++ fence.
Definition trailingCommaA1 : string := "{" ++ quote "a" ++ ":1,}".

(** A state with buckets of an earlier run, and an answer of the model
    whose second category holds a [null] item. *)
Definition staleState : State :=
  mkState "" "gpt-4o" "gm-key" []
          [(warranty, [mkItem (JInt 2) "Two years"])] false.
Definition halfBadData : JSON :=
  JObj [("safety", JArr [JObj [("page", JInt 1); ("text", JStr "Hot surface")]]);
        ("parts", JArr [JNull])].
Definition halfBadModel : Gemini :=
  fun _ _ => GResponse true (Some (stringify halfBadData)).

End Categorizer.

(* ========================================================================= *)
(** ** Retrieval Context Builder: intent detection and context assembly of
     [handleChat] *)
(* ========================================================================= *)

Module Retrieval.
Import JsString Json Categorizer.

(** [s.match(/a1|a2|.../)] for literal alternatives: some alternative
    occurs in [s]. *)
Definition matchesAny (alts : list string) (s : string) : bool :=
  existsb (fun a => includes a s) alts.

(** The intent detection of [handleChat]. *)
Definition detectIntent (query : string) : Category :=
  let lowerQuery := toLowerCase query in
  if matchesAny ["safe"; "warning"; "danger"; "hazard"; "caution"] lowerQuery
  then safety
  else if matchesAny ["part"; "spec"; "dimension"; "weight"; "model";
                      "cpu"; "ram"; "gpu"] lowerQuery
  then parts
  else if matchesAny ["warranty"; "coverage"; "support"; "contact"; "claim"]
                     lowerQuery
  then warranty
  else if matchesAny ["error"; "code"; "diagnostic"; "troubleshoot";
                      "problem"; "fix"] lowerQuery
  then errors
  else if matchesAny ["video"; "tutorial"; "link"; "url"; "guide"] lowerQuery
  then video
  else procedures.

(** The template [[Page p] text] of an item. *)
Definition renderItem (i : KnowledgeItem) : string :=
  "[Page " ++ toStr (page i) ++ "] " ++ text i.

(** The same template on a page record. *)
Definition renderPage (p : Compression.Page) : string :=
  "[Page " ++ ofZ (Compression.pageNum p) ++ "] " ++ Compression.text p.

Definition separatorLine : string := newline ++ "---" ++ newline.

(** The items of the category, joined by the separator line; empty when the
    category has no bucket. *)
Definition categoryContext (buckets : Buckets) (category : Category) : string :=
  match getBucket buckets category with
  | Some items => join separatorLine (map renderItem items)
  | None => ""
  end.

(** [Object.values(buckets).flat()] rendered and joined by line feeds. *)
Definition allContext (buckets : Buckets) : string :=
  join newline (map renderItem (List.concat (map snd buckets))).

(** The raw pages rendered, joined and cut at 30000 characters. *)
Definition rawContext (pages : list Compression.Page) : string :=
  substringTo 30000 (join newline (map renderPage pages)).

(** The context assembly of [handleChat]. *)
Definition buildContext (st : State) (category : Category) : string :=
  let context := "" in
  let context :=
    match getBucket (knowledgeBuckets st) category with
    | Some items => join separatorLine (map renderItem items)
    | None => context
    end in
  let context :=
    if isEmpty context then allContext (knowledgeBuckets st) else context in
  let context :=
    if isEmpty context && (0 <? Z.of_nat (List.length (pdfPages st)))
    then rawContext (pdfPages st)
    else context in
  context.

(** The retrieval part of [handleChat]: the detected category, whose usage
    counter is incremented, and the context placed in the prompt. *)
Definition handleChat (st : State) (query : string) : Category * string :=
  let category := detectIntent (trim query) in
  (category, buildContext st category).

(** *** The same, in the words of the specification *)

(** The keyword groups in their priority order. *)
Definition intentGroups : list (Category * list string) :=
  [ (safety, ["safe"; "warning"; "danger"; "hazard"; "caution"]);
    (parts, ["part"; "spec"; "dimension"; "weight"; "model"; "cpu"; "ram"; "gpu"]);
    (warranty, ["warranty"; "coverage"; "support"; "contact"; "claim"]);
    (errors, ["error"; "code"; "diagnostic"; "troubleshoot"; "problem"; "fix"]);
    (video, ["video"; "tutorial"; "link"; "url"; "guide"]) ].

(** The first group with a keyword in the lower-cased query wins;
    [procedures] when there is none. *)
Definition intentSpec (query : string) : Category :=
  match find (fun g => existsb (fun kw => includes kw (toLowerCase query)) (snd g))
             intentGroups with
  | Some g => fst g
  | None => procedures
  end.

(** The first non-empty string of a list, the empty string when there is
    none. *)
Fixpoint firstNonEmpty (candidates : list string) : string :=
  match candidates with
  | [] => ""
  | c :: rest => if isEmpty c then firstNonEmpty rest else c
  end.

(** A state whose only bucket is the safety one. *)
Definition safetyOnlyState : State :=
  mkState "" "gpt-4o" "gm-key" [Compression.mkPage 1 "Owner manual"]
          [(safety, [mkItem (JInt 4) "Hot surface"; mkItem (JInt 9) "Unplug first"])]
          false.

(** A state with pages and no bucket. *)
Definition pagesOnlyState : State :=
  mkState "" "gpt-4o" "gm-key"
          [Compression.mkPage 1 "Owner manual"; Compression.mkPage 2 "Read me first"]
          [] false.

(** *** The context, in the words of the specification *)

(** The rendering [[Page p] text] of a page number and a text. *)
Definition pageLine (p t : string) : string := "[Page " ++ p ++ "] " ++ t.

(** The separator line: three dashes on a line of their own. *)
Definition dashLine : string :=
  String (ascii_of_nat 10) ("---" ++ String (ascii_of_nat 10) "").

(** The character budget of the raw page texts. *)
Definition rawBudget : nat := Z.to_nat 30000.

(** The items of a category, none when the category is absent. *)
Definition itemsOfCategory (b : Buckets) (c : Category) : list KnowledgeItem :=
  match getBucket b c with
  | Some items => items
  | None => []
  end.

(** The items of all buckets, flattened in the order of the buckets. *)
Definition itemsOfAll (b : Buckets) : list KnowledgeItem := flat_map snd b.

Definition itemLine (i : KnowledgeItem) : string :=
  pageLine (toStr (page i)) (text i).

Definition rawLine (p : Compression.Page) : string :=
  pageLine (ofZ (Compression.pageNum p)) (Compression.text p).

(** (1) The items of the detected category, joined by the separator line. *)
Definition categoryCandidate (b : Buckets) (c : Category) : string :=
  join dashLine (map itemLine (itemsOfCategory b c)).

(** (2) The items of all buckets, one per line. *)
Definition flattenedCandidate (b : Buckets) : string :=
  join newline (map itemLine (itemsOfAll b)).

(** The raw pages, one per line, before the cut. *)
Definition rawLines (pages : list Compression.Page) : string :=
  join newline (map rawLine pages).

(** (3) The raw pages, cut at the budget. *)
Definition rawCandidate (pages : list Compression.Page) : string :=
  takeChars rawBudget (rawLines pages).

(** The context: the first candidate that is not empty. *)
Definition contextSpec (st : State) (category : Category) : string :=
  firstNonEmpty [categoryCandidate (knowledgeBuckets st) category;
                 flattenedCandidate (knowledgeBuckets st);
                 rawCandidate (pdfPages st)].

End Retrieval.

(* ========================================================================= *)
(** ** The session around the pipeline: ingestion, activity log, search,
       page filter, annotations and library *)
(* ========================================================================= *)

Module Session.
Import JsString Json Compression.

(** *** The page loop of [handlePDF] *)

(** What the loop obtains for one page: the text items and the height of
    the viewport, and what [extractTextFromPageImage] would do on the page
    (return a text or throw). *)
Record PageSource := mkPageSource {
  ps_items : list TextStructurer.TextItem;
  ps_height : Z;
  ps_ocr : result string
}.

(** The text stored for a page: the structured text, replaced by the text
    read from the image when it is shorter than 100 characters, a Gemini key
    is configured and the image text is longer. *)
Definition pageText (geminiKey : string) (src : PageSource) : string :=
  let text := TextStructurer.extractStructuredText (ps_items src) (ps_height src) in
  if (String.length text <? 100)%nat && negb (isEmpty geminiKey) then
    match ps_ocr src with
    | Ok ocrText =>
        if negb (isEmpty ocrText)
           && (String.length text <? String.length ocrText)%nat
        then ocrText else text
    | Throw _ => text
    end
  else text.

(** The pages pushed on [state.pdfPages] by a run of the loop in which no
    step throws, from page number [i] on. *)
Fixpoint ingestFrom (geminiKey : string) (i : Z) (sources : list PageSource)
  : list Page :=
  match sources with
  | [] => []
  | src :: rest =>
      mkPage i (pageText geminiKey src) :: ingestFrom geminiKey (i + 1) rest
  end.

Definition ingestPages (geminiKey : string) (sources : list PageSource)
  : list Page :=
  ingestFrom geminiKey 1 sources.

(** *** [logActivity] *)

Record Activity := mkActivity {
  a_time : string;
  a_type : string;
  a_description : string
}.

(** [l.slice(-n)] *)
Definition lastEntries {A : Type} (n : nat) (l : list A) : list A :=
  skipn (List.length l - n) l.

(** [logActivity(type, description)] on the activity log, at the time
    [now]. *)
Definition logActivity (now type description : string) (log : list Activity)
  : list Activity :=
  let log' := (log ++ [mkActivity now type description])%list in
  if (100 <? List.length log')%nat then lastEntries 100 log' else log'.

(** *** [performCrossManualSearch] *)

(** A manual of the library; [pageCount] and [dateAdded] are not read by
    the search. *)
Record Manual := mkManual {
  m_id : string;
  m_name : string;
  m_pages : list Page
}.

Record SearchResult := mkSearchResult {
  sr_manualId : string;
  sr_manualName : string;
  sr_pageNum : Z;
  sr_snippet : string
}.

(** [s.substring(a, b)] for [a <= b]. *)
Definition substring (a b : nat) (s : string) : string :=
  takeChars (b - a) (dropChars a s).

(** The result pushed for a page, if any.  [idx - 50] is cut at 0, as
    [Math.max(0, idx - 50)]. *)
Definition pageResult (lowerQuery : string) (m : Manual) (p : Page)
  : list SearchResult :=
  if includes lowerQuery (toLowerCase (text p)) then
    let snippet :=
      match indexOf lowerQuery (toLowerCase (text p)) with
      | Some idx => substring (idx - 50) (idx + 100) (text p)
      | None => substring 0 99 (text p)
      end in
    [mkSearchResult (m_id m) (m_name m) (pageNum p) ("..." ++ snippet ++ "...")]
  else [].

(** The [results] array of [performCrossManualSearch]. *)
Definition crossSearchResults (library : list Manual) (query : string)
  : list SearchResult :=
  flat_map (fun m => flat_map (pageResult (toLowerCase query) m) (m_pages m))
           library.

(** The results the search computes; [None] when it returns at once on a
    blank query. *)
Definition performCrossManualSearch (library : list Manual) (query : string)
  : option (list SearchResult) :=
  if isEmpty (trim query) then None
  else Some (crossSearchResults library query).

(** *** [filterPages] *)

(** The display flag given to every gallery item, named by its page
    number. *)
Definition filterPages (pdfPages : list Page) (gallery : list Z)
    (query : string) : list (Z * bool) :=
  let lowerQuery := toLowerCase query in
  map (fun n =>
         let pageData := find (fun p => pageNum p =? n) pdfPages in
         (n, includes query (ofZ n)
             || match pageData with
                | Some p => includes lowerQuery (toLowerCase (text p))
                | None => false
                end))
      gallery.

(** *** The annotation store *)

(** An annotation: its [id] and its other fields. *)
Record Annotation := mkAnnotation {
  an_id : Z;
  an_fields : list (string * JSON)
}.

(** [state.annotations]: the annotations of each page that has some. *)
Definition Annotations : Type := Z -> option (list Annotation).

(** [saveAnnotation(pageNum, annotation)] at the time [now]. *)
Definition saveAnnotation (now : Z) (page : Z) (fields : list (string * JSON))
    (store : Annotations) : Annotations :=
  let current := match store page with Some l => l | None => [] end in
  fun k => if k =? page
           then Some (current ++ [mkAnnotation now fields])%list
           else store k.

(** [deleteAnnotation(pageNum, id)]; it throws on a page without a list. *)
Definition deleteAnnotation (page : Z) (id : Z) (store : Annotations)
  : result Annotations :=
  match store page with
  | None => Throw "Cannot read properties of undefined"
  | Some l =>
      Ok (fun k => if k =? page
                   then Some (filter (fun a => negb (an_id a =? id)) l)
                   else store k)
  end.

(** *** The manual library *)

Record LibraryState := mkLibraryState {
  manualLibrary : list Manual;
  currentManualId : option string;
  lib_pdfPages : list Page;
  lib_knowledgeBuckets : Categorizer.Buckets
}.

(** [loadManual(id)]: the state it leaves and the pages whose extraction it
    starts, [None] when it returns at once. *)
Definition loadManual (id : string) (st : LibraryState)
  : LibraryState * option (list Page) :=
  match find (fun m => String.eqb (m_id m) id) (manualLibrary st) with
  | None => (st, None)
  | Some manual =>
      (mkLibraryState (manualLibrary st) (Some id) (m_pages manual) [],
       Some (m_pages manual))
  end.

(** [deleteManual(id)], given the answer to the confirmation. *)
Definition deleteManual (confirmed : bool) (id : string) (st : LibraryState)
  : LibraryState :=
  if negb confirmed then st
  else
    let library :=
      filter (fun m => negb (String.eqb (m_id m) id)) (manualLibrary st) in
    match currentManualId st with
    | Some cur =>
        if String.eqb cur id
        then mkLibraryState library None [] []
        else mkLibraryState library (Some cur) (lib_pdfPages st)
                            (lib_knowledgeBuckets st)
    | None =>
        mkLibraryState library None (lib_pdfPages st) (lib_knowledgeBuckets st)
    end.

End Session.

(* ========================================================================= *)
(** ** Notions and sample data for the further properties *)
(* ========================================================================= *)

Module Notions.
Import JsString Json.

(** The pages the loop keeps: all but the short blank ones. *)
Definition keptPage (p : Compression.Page) : bool :=
  negb ((String.length (Compression.text p) <? 50)%nat
        && negb (0 <? String.length (trim (Compression.text p)))%nat).

(** The pages sent to the service when a key is configured. *)
Definition longPage (p : Compression.Page) : bool :=
  negb (String.length (Compression.text p) <? 50)%nat.

(** The request of a page. *)
Definition requestOf (model : string) (p : Compression.Page) : Compression.Request :=
  Compression.mkRequest (Compression.text p) Compression.cleaningPrompt model 95.

(** An entry stands for a page: same number, and the text of the page or an
    accepted summary of a page of at least 50 characters. *)
Definition entryOf (e : Compression.CompressedPage) (p : Compression.Page) : Prop :=
  Compression.cp_page e = Compression.pageNum p
  /\ (Compression.cp_text e = Compression.text p
      \/ (Compression.accepted (Compression.cp_text e) = true
          /\ (50 <= String.length (Compression.text p))%nat)).

(** A row over the fragments [F]: its reference ordinate is the ordinate of
    its first item, and every item is a fragment within the tolerance of
    that ordinate. *)
Definition rowOk (F : list (Z * TextStructurer.RowItem)) (r : TextStructurer.Row) : Prop :=
  (exists it0 rest, TextStructurer.row_items r = it0 :: rest
                    /\ In (TextStructurer.row_y r, it0) F)
  /\ Forall (fun it => exists y, In (y, it) F
                                 /\ TextStructurer.near (TextStructurer.row_y r) y = true)
            (TextStructurer.row_items r).

(** A response wrapped in a fence line and a closing fence. *)
Definition fenced (opening : string) (s : string) : string :=
  opening ++ newline ++ s ++ newline ++ Categorizer.fence.

(** The bucket the normalization stores for a key: the normalized items,
    when there is one. *)
Definition expectedBucket (data : JSON) (key : Categorizer.Category)
  : option (list Categorizer.KnowledgeItem) :=
  match Categorizer.normalizeCategory data key with
  | Ok (it :: l) => Some (it :: l)
  | _ => None
  end.

(** An answer that splits page 6 between two categories. *)
Definition splitData : JSON :=
  JObj [("parts", JArr [JObj [("page", JInt 6); ("text", JStr "16 GB RAM")]]);
        ("warranty", JArr [JObj [("page", JInt 6); ("text", JStr "Two years")]])].

(** The value the normalization reads for a key: [data[key] || []]. *)
Definition itemsOf (ps : list (string * JSON)) (key : Categorizer.Category) : JSON :=
  match lookup (Categorizer.keyOf key) ps with
  | Some v => if truthy v then v else JArr []
  | None => JArr []
  end.

(** A response that wraps the answer in prose. *)
Definition chattyResponse : string :=
  "Here is the JSON you asked for: " ++ stringify splitData ++ " Hope it helps!".

(** A text of ASCII characters only (code units below 128), on which
    lower-casing goes unit by unit. *)
Fixpoint asciiText (s : string) : bool :=
  match s with
  | EmptyString => true
  | String c r => (nat_of_ascii c <? 128)%nat && asciiText r
  end.

(** A library of one manual. *)
Definition sampleLibrary : list Session.Manual :=
  [Session.mkManual "1700000000000" "Drill X1"
     [Compression.mkPage 1 "Cover"; Compression.mkPage 2 "The Warranty covers two years."]].

End Notions.

(* ========================================================================= *)
(** ** Properties of the Compression Adapter *)
(* ========================================================================= *)

Module CompressionProofs.
Import JsString Json Compression.

Lemma compressLoop_app :
  forall apiKey model svc st pre post,
    compressLoop apiKey model svc st (pre ++ post)%list =
    compressLoop apiKey model svc (compressLoop apiKey model svc st pre) post.
Proof.
  intros. unfold compressLoop. apply fold_left_app.
Qed.

Lemma compressLoop_cons :
  forall apiKey model svc st p post,
    compressLoop apiKey model svc st (p :: post) =
    compressLoop apiKey model svc (compressPage apiKey model svc st p) post.
Proof. reflexivity. Qed.

(** The requests of one iteration: none, or the one for the page, whose
    context is the page text and is at least 50 characters long. *)
Lemma compressPage_log :
  forall apiKey model svc c l p,
    snd (compressPage apiKey model svc (c, l) p) = l
    \/ (snd (compressPage apiKey model svc (c, l) p)
        = (l ++ [mkRequest (text p) cleaningPrompt model 95])%list
        /\ (50 <= String.length (text p))%nat).
Proof.
  intros. unfold compressPage.
  destruct (String.length (text p) <? 50)%nat eqn:Hlen.
  - left. destruct (0 <? String.length (trim (text p)))%nat; reflexivity.
  - apply Nat.ltb_ge in Hlen. unfold callScaleDown.
    destruct (isEmpty apiKey).
    + left. destruct (accepted _); reflexivity.
    + right. split; [|exact Hlen].
      destruct (scaleDownTry _); destruct (accepted _); reflexivity.
Qed.

(** Every request the loop adds to the log carries at least 50
    characters of context. *)
Lemma compressLoop_log_long :
  forall apiKey model svc pages c l,
    Forall (fun r => (50 <= String.length (req_context r))%nat) l ->
    Forall (fun r => (50 <= String.length (req_context r))%nat)
           (snd (compressLoop apiKey model svc (c, l) pages)).
Proof.
  induction pages as [|p pages IH]; intros c l Hl; [exact Hl|].
  rewrite compressLoop_cons.
  destruct (compressPage apiKey model svc (c, l) p) as [c' l'] eqn:Hstep.
  apply IH.
  destruct (compressPage_log apiKey model svc c l p) as [H | [H Hlen]];
    rewrite Hstep in H; simpl in H; subst l'; [exact Hl|].
  apply Forall_app. split; [exact Hl|].
  constructor; [exact Hlen | constructor].
Qed.

(** C6.  A page whose text is shorter than 50 characters is handled
    without the compression service: its iteration leaves the request log
    as it was and pushes the page with its text unchanged when the trimmed
    text is not empty, and nothing otherwise; the same holds for the page
    anywhere in a batch, and no request of a batch carries the text of such
    a page. *)
Theorem short_page_bypasses_compression :
  forall apiKey model svc c l p,
    (String.length (text p) < 50)%nat ->
    let entry :=
      if (0 <? String.length (trim (text p)))%nat
      then [mkCompressed (pageNum p) (text p)] else [] in
    compressPage apiKey model svc (c, l) p = ((c ++ entry)%list, l)
    /\ (forall pre post,
           compressLoop apiKey model svc (c, l) (pre ++ p :: post)%list =
           let (c1, l1) := compressLoop apiKey model svc (c, l) pre in
           compressLoop apiKey model svc ((c1 ++ entry)%list, l1) post)
    /\ (forall pages r,
           In r (snd (compressLoop apiKey model svc ([], []) pages)) ->
           req_context r <> text p).
Proof.
  intros apiKey model svc c l p Hlen entry.
  assert (Hstep : forall c0 l0,
             compressPage apiKey model svc (c0, l0) p = ((c0 ++ entry)%list, l0)).
  { intros c0 l0. unfold compressPage, entry.
    apply Nat.ltb_lt in Hlen. rewrite Hlen.
    destruct (0 <? String.length (trim (text p)))%nat;
      [reflexivity | now rewrite app_nil_r]. }
  split; [apply Hstep|]. split.
  - intros pre post. rewrite compressLoop_app, compressLoop_cons.
    destruct (compressLoop apiKey model svc (c, l) pre) as [c1 l1].
    now rewrite Hstep.
  - intros pages r Hin Heq.
    pose proof (compressLoop_log_long apiKey model svc pages [] []
                  (Forall_nil _)) as Hall.
    rewrite Forall_forall in Hall. specialize (Hall r Hin).
    rewrite Heq in Hall. lia.
Qed.

Lemma short_page_bypasses_compression_witness :
  let p := mkPage 3 "  Figure 1  " in
  compressPage "key" "gpt-4o" (fun _ _ => NetworkError) ([], []) p
  = ([mkCompressed 3 "  Figure 1  "], []).
Proof.
  intro p.
  exact (proj1 (short_page_bypasses_compression "key" "gpt-4o"
                  (fun _ _ => NetworkError) [] [] p
                  ltac:(vm_compute; lia))).
Defined.

Lemma compressPage_no_key :
  forall model svc c l p,
    compressPage "" model svc (c, l) p = ((c ++ identityEntry p)%list, l).
Proof.
  intros. unfold compressPage, identityEntry.
  destruct (String.length (text p) <? 50)%nat; simpl.
  - destruct (0 <? String.length (trim (text p)))%nat; simpl;
      [reflexivity | now rewrite app_nil_r].
  - reflexivity.
Qed.

(** C10.  Without a key [callScaleDown] answers the sentinel and sends
    nothing; the sentinel is not accepted; so the loop sends no request and
    returns the pages with their own texts (short blank pages dropped), and
    every page of at least 50 characters is in the batch with its original
    text; [extractKnowledge] then categorizes exactly that batch. *)
Theorem no_key_compression_is_identity :
  forall model svc c l pages,
    (forall req, callScaleDown "" svc l req = ("Summarization unavailable", l))
    /\ accepted "Summarization unavailable" = false
    /\ compressLoop "" model svc (c, l) pages
       = ((c ++ flat_map identityEntry pages)%list, l)
    /\ (forall p, In p pages -> (50 <= String.length (text p))%nat ->
          In (mkCompressed (pageNum p) (text p))
             (fst (compressLoop "" model svc (c, l) pages)))
    /\ (forall gKey stored buckets busy llm,
          let st := Categorizer.mkState "" model gKey stored buckets busy in
          Categorizer.extractKnowledge st svc llm pages
          = (fst (Categorizer.categorize (Categorizer.withProcessing st true) llm
                    (flat_map identityEntry pages)),
             [],
             snd (Categorizer.categorize (Categorizer.withProcessing st true) llm
                    (flat_map identityEntry pages)))).
Proof.
  intros model svc c l pages.
  assert (Hloop : forall ps c0 l0,
             compressLoop "" model svc (c0, l0) ps
             = ((c0 ++ flat_map identityEntry ps)%list, l0)).
  { induction ps as [|p ps IH]; intros c0 l0.
    - simpl. now rewrite app_nil_r.
    - rewrite compressLoop_cons, compressPage_no_key, IH.
      simpl. now rewrite <- app_assoc. }
  split; [reflexivity|]. split; [reflexivity|]. split; [apply Hloop|].
  split.
  - intros p Hin Hlen. rewrite Hloop. simpl.
    apply in_or_app. right. apply in_flat_map. exists p. split; [exact Hin|].
    unfold identityEntry.
    apply Nat.ltb_ge in Hlen. rewrite Hlen. simpl. now left.
  - intros gKey stored buckets busy llm st.
    unfold Categorizer.extractKnowledge. simpl.
    rewrite (Hloop pages [] []). simpl.
    now destruct (Categorizer.categorize
                    (Categorizer.withProcessing st true) llm
                    (flat_map identityEntry pages)).
Qed.

(** C1 (what the code does).  With a key configured, a page of at least 50
    characters whose request ends in a transport or service error is pushed
    with the text [ScaleDown Connection Failed], not with its own text:
    [callScaleDown] turns the error into that string, which passes the
    acceptance test. *)
Theorem transport_error_replaces_page_text :
  forall apiKey model svc c l p,
    isEmpty apiKey = false ->
    (50 <= String.length (text p))%nat ->
    transportError (svc l (mkRequest (text p) cleaningPrompt model 95)) = true ->
    compressPage apiKey model svc (c, l) p
    = ((c ++ [mkCompressed (pageNum p) "ScaleDown Connection Failed"])%list,
       (l ++ [mkRequest (text p) cleaningPrompt model 95])%list).
Proof.
  intros apiKey model svc c l p Hkey Hlen Herr.
  unfold compressPage, callScaleDown.
  apply Nat.ltb_ge in Hlen. rewrite Hlen, Hkey.
  assert (Htry : exists m,
             scaleDownTry (svc l (mkRequest (text p) cleaningPrompt model 95))
             = Throw m).
  { destruct (svc l _) as [|status body]; simpl in *.
    - eexists; reflexivity.
    - destruct (statusOk status); simpl.
      + destruct body; [discriminate | eexists; reflexivity].
      + destruct ((status =? 401) || (status =? 403));
          [discriminate | eexists; reflexivity]. }
  destruct Htry as [m Hm]. rewrite Hm. reflexivity.
Qed.

Lemma transport_error_replaces_page_text_witness :
  compressPage "sk-live" "gpt-4o" (fun _ _ => NetworkError) ([], [])
    (mkPage 1 "WARNING: Disconnect the power cord before opening the rear cover.")
  = ([mkCompressed 1 "ScaleDown Connection Failed"],
     [mkRequest "WARNING: Disconnect the power cord before opening the rear cover."
                cleaningPrompt "gpt-4o" 95]).
Proof.
  apply (transport_error_replaces_page_text "sk-live" "gpt-4o"
           (fun _ _ => NetworkError) [] []
           (mkPage 1 "WARNING: Disconnect the power cord before opening the rear cover."));
    [reflexivity | vm_compute; lia | reflexivity].
Defined.

End CompressionProofs.

(* ========================================================================= *)
(** ** Properties of the Text Structurer *)
(* ========================================================================= *)

Module StructurerProofs.
Import JsString TextStructurer.

(** *** Invariance under reordering *)

(** *** Sorting *)
Section SortFacts.
Context {A : Type} (key : A -> Z).

Lemma insertBy_perm : forall a l, Permutation (insertBy key a l) (a :: l).
Proof.
  intros a l. induction l as [|b t IH]; simpl; [reflexivity|].
  destruct (key a <=? key b); [reflexivity|].
  rewrite IH. apply perm_swap.
Qed.

Lemma sortBy_perm : forall l, Permutation (sortBy key l) l.
Proof.
  induction l as [|a l IH]; simpl; [reflexivity|].
  rewrite insertBy_perm. now constructor.
Qed.


Lemma insertBy_sorted :
  forall a l, StronglySorted (keyLe key) l -> StronglySorted (keyLe key) (insertBy key a l).
Proof.
  intros a l Hs. induction Hs as [|b t Hs IH Hall]; simpl.
  - constructor; constructor.
  - destruct (Z.leb_spec (key a) (key b)).
    + constructor; [constructor; assumption|].
      constructor; [exact H|].
      rewrite Forall_forall in *. intros x Hx. specialize (Hall x Hx).
      unfold keyLe in *. lia.
    + constructor; [exact IH|].
      rewrite Forall_forall in *. intros x Hx.
      apply (Permutation_in _ (insertBy_perm a t)) in Hx.
      destruct Hx as [<- | Hx]; [unfold keyLe; lia | auto].
Qed.

Lemma sortBy_sorted : forall l, StronglySorted (keyLe key) (sortBy key l).
Proof.
  induction l as [|a l IH]; simpl; [constructor|].
  now apply insertBy_sorted.
Qed.

Lemma sorted_perm_unique :
  forall l1 l2,
    StronglySorted (keyLe key) l1 -> StronglySorted (keyLe key) l2 ->
    Permutation l1 l2 ->
    (forall a b, In a l1 -> In b l1 -> key a = key b -> a = b) ->
    l1 = l2.
Proof.
  induction l1 as [|a t1 IH]; intros l2 Hs1 Hs2 Hp Hinj.
  - apply Permutation_nil in Hp. now subst.
  - destruct l2 as [|b t2].
    { apply Permutation_sym, Permutation_nil in Hp. discriminate. }
    inversion Hs1 as [|? ? Hs1' Hall1]; subst.
    inversion Hs2 as [|? ? Hs2' Hall2]; subst.
    rewrite Forall_forall in Hall1, Hall2.
    assert (Hab : a = b).
    { assert (Hb : In b (a :: t1))
        by (apply (Permutation_in _ (Permutation_sym Hp)); now left).
      assert (Ha : In a (b :: t2))
        by (apply (Permutation_in _ Hp); now left).
      apply Hinj; [now left | exact Hb |].
      destruct Hb as [Hb | Hb]; [now subst|].
      destruct Ha as [Ha | Ha]; [now subst|].
      specialize (Hall1 b Hb). specialize (Hall2 a Ha).
      unfold keyLe in *. lia. }
    subst b. f_equal.
    apply IH; try assumption.
    + eapply Permutation_cons_inv; exact Hp.
    + intros x y Hx Hy. apply Hinj; now right.
Qed.
End SortFacts.

Lemma insertBy_map :
  forall {A B : Type} (key : B -> Z) (f : A -> B) a l,
    insertBy key (f a) (map f l) = map f (insertBy (fun x => key (f x)) a l).
Proof.
  intros A B key f a l. induction l as [|b t IH]; simpl; [reflexivity|].
  destruct (key (f a) <=? key (f b)); simpl; [reflexivity | now rewrite IH].
Qed.

Lemma sortBy_map :
  forall {A B : Type} (key : B -> Z) (f : A -> B) l,
    sortBy key (map f l) = map f (sortBy (fun x => key (f x)) l).
Proof.
  intros A B key f l. induction l as [|a t IH]; simpl; [reflexivity|].
  now rewrite IH, insertBy_map.
Qed.

Lemma filter_none :
  forall {A : Type} (f : A -> bool) l,
    (forall x, In x l -> f x = false) -> filter f l = [].
Proof.
  intros A f l. induction l as [|a l IH]; intro H; simpl; [reflexivity|].
  rewrite (H a) by now left. apply IH. intros x Hx. apply H. now right.
Qed.

(** *** Clustering *)

Lemma near_refl : forall a, near a a = true.
Proof. intro a. unfold near, rowTolerance. apply Z.ltb_lt. lia. Qed.

Lemma near_sym : forall a b, near a b = near b a.
Proof.
  intros a b. unfold near. f_equal. lia.
Qed.

Lemma near_true : forall a b, near a b = true <-> Z.abs (a - b) < 8.
Proof. intros. unfold near, rowTolerance. apply Z.ltb_lt. Qed.

Lemma near_false : forall a b, near a b = false <-> 8 <= Z.abs (a - b).
Proof. intros. unfold near, rowTolerance. apply Z.ltb_ge. Qed.

Lemma clusterRows_fold :
  forall height items rows,
    fold_left (addItem height) items rows
    = fold_left place (fragments height items) rows.
Proof.
  intros height items. induction items as [|i items IH]; intro rows; simpl.
  - reflexivity.
  - rewrite fold_left_app, IH. unfold addItem.
    destruct (fragmentOf height i) as [[y it]|]; reflexivity.
Qed.

Lemma itemsNear_snoc :
  forall y F f,
    itemsNear y (F ++ [f]) =
    (itemsNear y F ++ if near y (fst f) then [snd f] else [])%list.
Proof.
  intros y F f. unfold itemsNear. rewrite filter_app, map_app. simpl.
  destruct (near y (fst f)); reflexivity.
Qed.

(** Placing a fragment in the rows of [F], when at most one row is near
    it. *)
Lemma place_rows :
  forall F f Ys,
    NoDup Ys ->
    (forall a b, In a Ys -> In b Ys ->
                 near a (fst f) = true -> near b (fst f) = true -> a = b) ->
    place (map (rowOf F) Ys) f =
    if existsb (fun a => near a (fst f)) Ys
    then map (rowOf (F ++ [f])) Ys
    else (map (rowOf (F ++ [f])) Ys ++ [mkRow (fst f) [snd f]])%list.
Proof.
  intros F f Ys. unfold place.
  induction Ys as [|a Ys IH]; intros Hnd Huniq; simpl; [reflexivity|].
  inversion Hnd as [|? ? Hnotin Hnd']; subst.
  fold (near a (fst f)).
  destruct (near a (fst f)) eqn:Ha; simpl.
  - f_equal.
    + unfold rowOf. now rewrite itemsNear_snoc, Ha.
    + apply map_ext_in. intros b Hb. unfold rowOf.
      rewrite itemsNear_snoc.
      destruct (near b (fst f)) eqn:Hb'; [|now rewrite app_nil_r].
      exfalso. apply Hnotin.
      assert (a = b)
        by (apply Huniq; [now left | now right | exact Ha | exact Hb']).
      now subst.
  - rewrite IH; [|exact Hnd'|intros; apply Huniq; auto; now right].
    assert (Hrow : rowOf F a = rowOf (F ++ [f]) a).
    { unfold rowOf. now rewrite itemsNear_snoc, Ha, app_nil_r. }
    rewrite Hrow.
    destruct (existsb _ Ys); reflexivity.
Qed.


Lemma transitiveOn_incl :
  forall L L', incl L L' -> transitiveOn L' -> transitiveOn L.
Proof.
  intros L L' Hincl HT a b c Ha Hb Hc. apply HT; now apply Hincl.
Qed.

Lemma cluster_rows :
  forall F,
    transitiveOn (map fst F) ->
    exists Ys, fold_left place F [] = map (rowOf F) Ys /\ clustered F Ys.
Proof.
  induction F as [|f F IH] using rev_ind; intro HT.
  - exists []. split; [reflexivity|].
    constructor; simpl; try tauto. constructor.
  - destruct IH as [Ys [Hrows Hcl]].
    { eapply transitiveOn_incl; [|exact HT].
      rewrite map_app. apply incl_appl, incl_refl. }
    destruct Hcl as [Hin Hcover Hnd Hapart].
    assert (HinF : forall a, In a Ys -> In a (map fst (F ++ [f]))).
    { intros a Ha. rewrite map_app. apply in_or_app. left. auto. }
    assert (Hf : In (fst f) (map fst (F ++ [f]))).
    { rewrite map_app. apply in_or_app. right. now left. }
    assert (Huniq : forall a b, In a Ys -> In b Ys ->
               near a (fst f) = true -> near b (fst f) = true -> a = b).
    { intros a b Ha Hb Haf Hbf. apply Hapart; auto.
      apply (HT a (fst f) b); auto. now rewrite near_sym. }
    rewrite fold_left_app. simpl. rewrite Hrows.
    fold (place (map (rowOf F) Ys) f).
    rewrite place_rows by assumption.
    destruct (existsb (fun a => near a (fst f)) Ys) eqn:Hex.
    + exists Ys. split; [reflexivity|].
      constructor; auto.
      intros p Hp. apply in_app_or in Hp. destruct Hp as [Hp | [<- | []]].
      * auto.
      * apply existsb_exists in Hex. exact Hex.
    + assert (Hfar : forall a, In a Ys -> near a (fst f) = false).
      { intros a Ha. destruct (near a (fst f)) eqn:E; [|reflexivity].
        assert (existsb (fun a => near a (fst f)) Ys = true)
          by (apply existsb_exists; eauto).
        congruence. }
      assert (Hnone : itemsNear (fst f) F = []).
      { unfold itemsNear.
        replace (filter (fun p => near (fst f) (fst p)) F) with
          (@nil (Z * RowItem)); [reflexivity|].
        symmetry. apply filter_none.
        intros p Hp.
        destruct (near (fst f) (fst p)) eqn:E; [|reflexivity].
        destruct (Hcover p Hp) as [a [Ha Hap]].
        assert (near a (fst f) = true).
        { apply (HT a (fst p) (fst f)); auto.
          - rewrite map_app. apply in_or_app. left. now apply in_map.
          - now rewrite near_sym. }
        rewrite Hfar in H by assumption. discriminate. }
      exists (Ys ++ [fst f])%list. split.
      * rewrite map_app. simpl. f_equal. f_equal.
        unfold rowOf. rewrite itemsNear_snoc, Hnone, near_refl. reflexivity.
      * constructor.
        -- intros a Ha. apply in_app_or in Ha.
           destruct Ha as [Ha | [<- | []]]; auto.
        -- intros p Hp. apply in_app_or in Hp.
           destruct Hp as [Hp | [<- | []]].
           ++ destruct (Hcover p Hp) as [a [Ha Hap]].
              exists a. split; [apply in_or_app; now left | exact Hap].
           ++ exists (fst f). split; [apply in_or_app; right; now left|].
              apply near_refl.
        -- apply (Permutation_NoDup (Permutation_cons_append Ys (fst f))).
           constructor; [|exact Hnd].
           intro Hy. specialize (Hfar _ Hy). rewrite near_refl in Hfar.
           discriminate.
        -- intros a b Ha Hb Hab.
           apply in_app_or in Ha. apply in_app_or in Hb.
           destruct Ha as [Ha | [<- | []]], Hb as [Hb | [<- | []]].
           ++ now apply Hapart.
           ++ rewrite Hfar in Hab by assumption. discriminate.
           ++ rewrite near_sym, Hfar in Hab by assumption. discriminate.
           ++ reflexivity.
Qed.

(** *** Sorted rows *)


Lemma sorted_apart :
  forall L,
    StronglySorted (keyLe (fun y : Z => y)) L ->
    NoDup L ->
    (forall a b, In a L -> In b L -> near a b = true -> a = b) ->
    StronglySorted gapLt L.
Proof.
  intros L Hs. induction Hs as [|a t Hs IH Hall]; intros Hnd Hapart.
  - constructor.
  - inversion Hnd as [|? ? Hnotin Hnd']; subst.
    constructor.
    + apply IH; [exact Hnd'|]. intros x y Hx Hy. apply Hapart; now right.
    + rewrite Forall_forall in *. intros b Hb.
      specialize (Hall b Hb). unfold keyLe in Hall. unfold gapLt.
      destruct (near a b) eqn:E.
      * exfalso. apply Hnotin.
        rewrite (Hapart a b); [exact Hb | now left | now right | exact E].
      * apply near_false in E. lia.
Qed.

(** Two lists of row ordinates, each sorted with rows apart, that cover
    each other, are near each other position by position. *)
Lemma aligned :
  forall L L1 L2,
    transitiveOn L -> incl L1 L -> incl L2 L ->
    StronglySorted gapLt L1 -> StronglySorted gapLt L2 ->
    (forall a, In a L1 -> exists b, In b L2 /\ near a b = true) ->
    (forall b, In b L2 -> exists a, In a L1 /\ near a b = true) ->
    Forall2 (fun a b => near a b = true) L1 L2.
Proof.
  intros L L1. induction L1 as [|a t1 IH]; intros L2 HT Hi1 Hi2 Hs1 Hs2 H12 H21.
  - destruct L2 as [|b t2]; [constructor|].
    destruct (H21 b (or_introl eq_refl)) as [a [[] _]].
  - destruct L2 as [|b t2].
    { destruct (H12 a (or_introl eq_refl)) as [b [[] _]]. }
    inversion Hs1 as [|? ? Hs1' Hall1]; subst.
    inversion Hs2 as [|? ? Hs2' Hall2]; subst.
    rewrite Forall_forall in Hall1, Hall2.
    assert (Hab : near a b = true).
    { destruct (H12 a (or_introl eq_refl)) as [b' [[<- | Hb'] Hn1]];
        [exact Hn1|].
      destruct (H21 b (or_introl eq_refl)) as [a' [[<- | Ha'] Hn2]];
        [exact Hn2|].
      specialize (Hall1 a' Ha'). specialize (Hall2 b' Hb').
      apply near_true in Hn1. apply near_true in Hn2.
      unfold gapLt in *. lia. }
    constructor; [exact Hab|].
    apply IH; try assumption.
    + intros x Hx. apply Hi1. now right.
    + intros x Hx. apply Hi2. now right.
    + intros x Hx.
      destruct (H12 x (or_intror Hx)) as [y [[<- | Hy] Hn]];
        [|exists y; now split].
      exfalso.
      assert (Hxa : near x a = true).
      { apply (HT x b a); auto.
        - apply Hi1. now right.
        - apply Hi2. now left.
        - apply Hi1. now left.
        - now rewrite near_sym. }
      specialize (Hall1 x Hx). apply near_true in Hxa.
      unfold gapLt in *. lia.
    + intros y Hy.
      destruct (H21 y (or_intror Hy)) as [x [[<- | Hx] Hn]];
        [|exists x; now split].
      exfalso.
      assert (Hyb : near y b = true).
      { apply (HT y a b); auto.
        - apply Hi2. now right.
        - apply Hi1. now left.
        - apply Hi2. now left.
        - now rewrite near_sym. }
      specialize (Hall2 y Hy). apply near_true in Hyb.
      unfold gapLt in *. lia.
Qed.

Lemma Permutation_filter' :
  forall {A : Type} (f : A -> bool) l l',
    Permutation l l' -> Permutation (filter f l) (filter f l').
Proof.
  intros A f l l' Hp. induction Hp; simpl.
  - constructor.
  - destruct (f x); [now constructor | assumption].
  - destruct (f x), (f y); try reflexivity. apply perm_swap.
  - etransitivity; eassumption.
Qed.



Lemma in_itemsNear :
  forall y F it, In it (itemsNear y F) ->
                 exists p, In p F /\ snd p = it /\ near y (fst p) = true.
Proof.
  intros y F it Hin. unfold itemsNear in Hin.
  apply in_map_iff in Hin. destruct Hin as [p [Hp Hin]].
  apply filter_In in Hin. exists p. tauto.
Qed.

Lemma rowContent_perm :
  forall F F' y,
    Permutation F F' ->
    transitiveOn (map fst F) -> sameAbscissaSameItem F ->
    In y (map fst F) ->
    rowContent F y = rowContent F' y.
Proof.
  intros F F' y Hp HT Hx Hy. unfold rowContent.
  apply (sorted_perm_unique ri_x); try apply sortBy_sorted.
  - rewrite !sortBy_perm. unfold itemsNear.
    apply Permutation_map, Permutation_filter', Hp.
  - intros a b Ha Hb Hkey.
    apply (Permutation_in _ (sortBy_perm ri_x _)) in Ha, Hb.
    apply in_itemsNear in Ha, Hb.
    destruct Ha as [p [Hp1 [<- Hn1]]]. destruct Hb as [q [Hq1 [<- Hn2]]].
    apply Hx; auto.
    apply (HT (fst p) y (fst q)); auto using in_map.
    now rewrite near_sym.
Qed.

Lemma rowContent_near :
  forall F a b,
    transitiveOn (map fst F) ->
    In a (map fst F) -> In b (map fst F) -> near a b = true ->
    rowContent F a = rowContent F b.
Proof.
  intros F a b HT Ha Hb Hab. unfold rowContent, itemsNear.
  f_equal. f_equal. apply filter_ext_in. intros p Hp.
  assert (Hpin : In (fst p) (map fst F)) by now apply in_map.
  destruct (near b (fst p)) eqn:E.
  - apply (HT a b (fst p)); auto.
  - destruct (near a (fst p)) eqn:E'; [|reflexivity].
    rewrite <- E. symmetry. apply (HT b a (fst p)); auto.
    now rewrite near_sym.
Qed.

Lemma rowContent_aligned :
  forall F F' L1 L2,
    Permutation F F' ->
    transitiveOn (map fst F) -> sameAbscissaSameItem F ->
    Forall2 (fun a b => near a b = true) L1 L2 ->
    (forall a, In a L1 -> In a (map fst F)) ->
    (forall b, In b L2 -> In b (map fst F)) ->
    map (rowContent F) L1 = map (rowContent F') L2.
Proof.
  intros F F' L1 L2 Hp HT HX Hal.
  induction Hal as [|a b t t' Hab Hal IH]; intros H1 H2; [reflexivity|].
  assert (Ha : In a (map fst F)) by (apply H1; now left).
  assert (Hb : In b (map fst F)) by (apply H2; now left).
  simpl. f_equal.
  - rewrite (rowContent_near F a b HT Ha Hb Hab).
    now apply rowContent_perm.
  - apply IH; intros; [apply H1 | apply H2]; now right.
Qed.

(** The rows after both sorts, as row contents at sorted ordinates. *)
Lemma sortedRows_content :
  forall height items,
    transitiveOn (map fst (fragments height items)) ->
    exists Ys,
      clustered (fragments height items) Ys /\
      map row_items (sortedRows height items)
      = map (rowContent (fragments height items)) (sortBy (fun y => y) Ys).
Proof.
  intros height items HT.
  destruct (cluster_rows _ HT) as [Ys [Hrows Hcl]].
  exists Ys. split; [exact Hcl|].
  unfold sortedRows, clusterRows.
  rewrite clusterRows_fold, Hrows, sortBy_map, !map_map. simpl.
  reflexivity.
Qed.

Lemma buildLine_lineOf :
  forall rows, map buildLine rows = map lineOf (map row_items rows).
Proof. intro rows. now rewrite map_map. Qed.

Lemma rowsUnambiguous_spec :
  forall F, rowsUnambiguous F = true -> transitiveOn (map fst F).
Proof.
  intros F H a b c Ha Hb Hc Hab Hbc.
  apply in_map_iff in Ha, Hb, Hc.
  destruct Ha as [p [<- Hp]], Hb as [q [<- Hq]], Hc as [r [<- Hr]].
  unfold rowsUnambiguous in H.
  rewrite forallb_forall in H. specialize (H p Hp).
  rewrite forallb_forall in H. specialize (H q Hq).
  rewrite forallb_forall in H. specialize (H r Hr).
  rewrite Hab, Hbc in H. simpl in H. exact H.
Qed.

Lemma RowItem_eqb_eq : forall a b, RowItem_eqb a b = true -> a = b.
Proof.
  intros [x1 t1 w1] [x2 t2 w2]. unfold RowItem_eqb. simpl. intro H.
  apply andb_prop in H. destruct H as [H Hw].
  apply andb_prop in H. destruct H as [Hx Ht].
  apply Z.eqb_eq in Hx, Hw. apply String.eqb_eq in Ht. now subst.
Qed.

Lemma abscissasDistinct_spec :
  forall F, abscissasDistinct F = true -> sameAbscissaSameItem F.
Proof.
  intros F H p q Hp Hq Hn Hx.
  unfold abscissasDistinct in H.
  rewrite forallb_forall in H. specialize (H p Hp).
  rewrite forallb_forall in H. specialize (H q Hq).
  rewrite Hn in H. apply Z.eqb_eq in Hx. rewrite Hx in H. simpl in H.
  now apply RowItem_eqb_eq.
Qed.

Lemma fragments_perm :
  forall height items items',
    Permutation items items' ->
    Permutation (fragments height items) (fragments height items').
Proof.
  intros height items items' Hp. unfold fragments.
  induction Hp; simpl.
  - constructor.
  - now apply Permutation_app_head.
  - rewrite !app_assoc. apply Permutation_app_tail, Permutation_app_comm.
  - etransitivity; eassumption.
Qed.

(** C2 (amended).  When no fragment bridges two rows (being within the
    tolerance is transitive on the ordinates of the fragments) and no two
    different fragments of a row share an abscissa, the structurer gives
    the same text for every order of the fragments. *)
Theorem structuring_permutation_invariant :
  forall height items items',
    Permutation items items' ->
    rowsUnambiguous (fragments height items) = true ->
    abscissasDistinct (fragments height items) = true ->
    extractStructuredText items height = extractStructuredText items' height.
Proof.
  intros height items items' Hp HTb HXb.
  pose proof (fragments_perm height _ _ Hp) as HpF.
  set (F := fragments height items) in *.
  set (F' := fragments height items') in *.
  pose proof (rowsUnambiguous_spec _ HTb) as HT.
  pose proof (abscissasDistinct_spec _ HXb) as HX.
  assert (Hys : forall y, In y (map fst F) <-> In y (map fst F')).
  { intro y. split; apply Permutation_in;
      [apply Permutation_map, HpF | apply Permutation_map, Permutation_sym, HpF]. }
  assert (HT' : transitiveOn (map fst F')).
  { eapply transitiveOn_incl; [|exact HT]. intros y Hy. now apply Hys. }
  destruct (sortedRows_content height items HT) as [Ys [Hcl Hrows]].
  destruct (sortedRows_content height items' HT') as [Ys' [Hcl' Hrows']].
  fold F in Hcl, Hrows. fold F' in Hcl', Hrows'.
  assert (Hlines : map buildLine (sortedRows height items)
                   = map buildLine (sortedRows height items')).
  { rewrite !buildLine_lineOf, Hrows, Hrows'. f_equal.
    set (SY := sortBy (fun y => y) Ys). set (SY' := sortBy (fun y => y) Ys').
    assert (HinSY : forall a, In a SY <-> In a Ys).
    { intro a. split; apply Permutation_in;
        [apply sortBy_perm | apply Permutation_sym, sortBy_perm]. }
    assert (HinSY' : forall a, In a SY' <-> In a Ys').
    { intro a. split; apply Permutation_in;
        [apply sortBy_perm | apply Permutation_sym, sortBy_perm]. }
    destruct Hcl as [Hin Hcover Hnd Hapart].
    destruct Hcl' as [Hin' Hcover' Hnd' Hapart'].
    assert (Hal : Forall2 (fun a b => near a b = true) SY SY').
    { apply (aligned (map fst F)); auto.
      - intros a Ha. apply Hin, HinSY, Ha.
      - intros a Ha. apply Hys, Hin', HinSY', Ha.
      - apply sorted_apart; [apply sortBy_sorted | |].
        + apply (Permutation_NoDup (Permutation_sym (sortBy_perm _ Ys)) Hnd).
        + intros a b Ha Hb. apply Hapart; now apply HinSY.
      - apply sorted_apart; [apply sortBy_sorted | |].
        + apply (Permutation_NoDup (Permutation_sym (sortBy_perm _ Ys')) Hnd').
        + intros a b Ha Hb. apply Hapart'; now apply HinSY'.
      - intros a Ha. apply HinSY, Hin, in_map_iff in Ha.
        destruct Ha as [p [<- Hpin]].
        destruct (Hcover' p (Permutation_in _ HpF Hpin)) as [b [Hb Hn]].
        exists b. split; [now apply HinSY' | now rewrite near_sym].
      - intros b Hb. apply HinSY', Hin', in_map_iff in Hb.
        destruct Hb as [p [<- Hpin]].
        destruct (Hcover p (Permutation_in _ (Permutation_sym HpF) Hpin))
          as [a [Ha Hn]].
        exists a. split; [now apply HinSY | exact Hn]. }
    apply rowContent_aligned; auto.
    - intros a Ha. apply Hin, HinSY, Ha.
    - intros b Hb. apply Hys, Hin', HinSY', Hb. }
  unfold extractStructuredText.
  destruct items as [|i items], items' as [|i' items'].
  - reflexivity.
  - apply Permutation_nil in Hp. discriminate.
  - apply Permutation_sym, Permutation_nil in Hp. discriminate.
  - now rewrite Hlines.
Qed.

Lemma structuring_permutation_invariant_witness :
  let a := mkTextItem (Some "Weight") (Some (0, 700)) (Some 30) in
  let b := mkTextItem (Some "2.1 kg") (Some (60, 703)) (Some 25) in
  let c := mkTextItem (Some "Height") (Some (0, 680)) (Some 30) in
  extractStructuredText [a; b; c] 792 = extractStructuredText [c; b; a] 792.
Proof.
  intros a b c.
  apply structuring_permutation_invariant; [|reflexivity|reflexivity].
  apply perm_trans with [b; a; c]; [apply perm_swap|].
  apply perm_trans with [b; c; a]; [apply perm_skip, perm_swap|].
  apply perm_swap.
Defined.

(** *** Separators *)

Lemma lineItems_app :
  forall pre lastX lastWidth a rest,
    lineItems lastX lastWidth (pre ++ a :: rest)%list =
    (lineItems lastX lastWidth (pre ++ [a]) ++
     lineItems (ri_x a) (effWidth a) rest)%list.
Proof.
  induction pre as [|p pre IH]; intros lastX lastWidth a rest; simpl.
  - now rewrite <- app_assoc.
  - rewrite IH. now rewrite <- !app_assoc.
Qed.

Lemma separator_stated :
  forall lastX lastWidth x,
    0 <= lastX ->
    separator lastX lastWidth x = statedSeparator (x - (lastX + lastWidth)).
Proof.
  intros lastX lastWidth x Hpos. unfold separator, statedSeparator.
  destruct (Z.geb_spec lastX 0); [|lia].
  destruct (Z.gtb_spec (x - (lastX + lastWidth)) 15);
    destruct (Z.leb_spec (x - (lastX + lastWidth)) 2); try lia;
    destruct (Z.gtb_spec (x - (lastX + lastWidth)) 2);
    destruct (Z.leb_spec (x - (lastX + lastWidth)) 15); try lia; reflexivity.
Qed.

(** C5 (amended).  For two adjacent fragments [a], [b] of a row, [a] at a
    non-negative abscissa, the line builder pushes between their texts no
    separator, a space or the column separator according to the gap
    [x b - (x a + w)] being at most 2, at most 15 or above 15, where [w] is
    the width of [a], or five units per character of its text when that
    width is zero.  With widths 10: a gap of 16 gives the column separator,
    a gap of 10 a space, a gap of 0 nothing. *)
Theorem separator_by_effective_gap :
  forall lastX lastWidth pre a b post,
    0 <= ri_x a ->
    let gap := ri_x b - (ri_x a + effWidth a) in
    lineItems lastX lastWidth (pre ++ a :: b :: post)%list
    = (lineItems lastX lastWidth (pre ++ [a])
         ++ statedSeparator gap
         ++ ri_text b :: lineItems (ri_x b) (effWidth b) post)%list
    /\ (ri_width a <> 0 -> effWidth a = ri_width a)
    /\ (ri_width a = 0 ->
        effWidth a = Z.of_nat (String.length (ri_text a)) * 5)
    /\ extractStructuredText
         [mkTextItem (Some "Model") (Some (0, 700)) (Some 10);
          mkTextItem (Some "X1") (Some (26, 700)) (Some 10)] 792
       = "Model | X1"
    /\ extractStructuredText
         [mkTextItem (Some "Model") (Some (0, 700)) (Some 10);
          mkTextItem (Some "X1") (Some (20, 700)) (Some 10)] 792
       = "Model X1"
    /\ extractStructuredText
         [mkTextItem (Some "Model") (Some (0, 700)) (Some 10);
          mkTextItem (Some "X1") (Some (10, 700)) (Some 10)] 792
       = "ModelX1".
Proof.
  intros lastX lastWidth pre a b post Hpos gap.
  split.
  - rewrite lineItems_app. simpl.
    rewrite separator_stated by exact Hpos. reflexivity.
  - split.
    + intro Hw. unfold effWidth.
      destruct (Z.eqb_spec (ri_width a) 0); [contradiction | reflexivity].
    + split.
      * intro Hw. unfold effWidth. now rewrite Hw.
      * repeat split; vm_compute; reflexivity.
Qed.

Lemma separator_by_effective_gap_witness :
  lineItems (-1) 0 [mkRowItem 0 "Model" 10; mkRowItem 26 "X1" 10]
  = ["Model"; " | "; "X1"].
Proof.
  exact (proj1 (separator_by_effective_gap (-1) 0 []
                  (mkRowItem 0 "Model" 10) (mkRowItem 26 "X1" 10) []
                  ltac:(simpl; lia))).
Defined.

(** C5 as stated fails on a fragment of width zero: the gap computed with
    the width of the fragment is 16, yet the separator is a space, because
    the builder counts five units per character for such a fragment. *)
Lemma gap_with_zero_width_counterexample :
  let a := mkRowItem 0 "ab" 0 in
  let b := mkRowItem 16 "c" 4 in
  ri_x b - (ri_x a + ri_width a) = 16
  /\ lineItems (-1) 0 [a; b] = ["ab"; " "; "c"]
  /\ lineItems (-1) 0 [a; b] <> ["ab"; " | "; "c"]
  /\ extractStructuredText
       [mkTextItem (Some "ab") (Some (0, 700)) (Some 0);
        mkTextItem (Some "c") (Some (16, 700)) (Some 4)] 792
     = "ab c".
Proof.
  repeat split; try reflexivity. discriminate.
Qed.

(** C2 as stated fails: three fragments at ordinates 0, 7 and 14 form two
    rows when read in that order and one row when the middle one is read
    first. *)
Lemma permutation_counterexample :
  let a := mkTextItem (Some "a") (Some (0, 100)) (Some 10) in
  let b := mkTextItem (Some "b") (Some (50, 93)) (Some 10) in
  let c := mkTextItem (Some "c") (Some (100, 86)) (Some 10) in
  Permutation [a; b; c] [b; a; c]
  /\ extractStructuredText [a; b; c] 100 = "a | b" ++ newline ++ "c"
  /\ extractStructuredText [b; a; c] 100 = "a | b | c"
  /\ extractStructuredText [a; b; c] 100 <> extractStructuredText [b; a; c] 100.
Proof.
  repeat split; try reflexivity.
  - apply perm_swap.
  - vm_compute. discriminate.
Qed.

End StructurerProofs.

(* ========================================================================= *)
(** ** Properties of the Categorization Normalizer *)
(* ========================================================================= *)

Module CategorizerProofs.
Import JsString Json Categorizer.

(** *** White space *)


Lemma collapseFrom_collapsed :
  forall s b, collapsedFrom b (collapseFrom b s).
Proof.
  induction s as [|c r IH]; intro b; simpl; [exact I|].
  destruct (isSpace c) eqn:Hc.
  - destruct b; [apply IH|].
    simpl. repeat split. apply IH.
  - simpl. rewrite Hc. apply IH.
Qed.

Lemma collapsed_fixed :
  forall s b, collapsedFrom b s -> collapseFrom b s = s.
Proof.
  induction s as [|c r IH]; intros b H; simpl in *; [reflexivity|].
  destruct (isSpace c).
  - destruct H as [-> [-> H]]. now rewrite IH.
  - now rewrite IH.
Qed.

Lemma collapsed_weaken :
  forall s, collapsedFrom true s -> collapsedFrom false s.
Proof.
  intros [|c r]; simpl; [trivial|].
  destruct (isSpace c); [|trivial].
  intros [_ [H _]]. discriminate.
Qed.

Lemma collapsed_trimStart :
  forall s, collapsedFrom false s -> collapsedFrom false (trimStart s).
Proof.
  intros [|c r]; simpl; [trivial|].
  destruct (isSpace c) eqn:Hc.
  - intros [_ [_ H]]. destruct r as [|d r']; simpl in *; [trivial|].
    destruct (isSpace d) eqn:Hd.
    + destruct H as [_ [H _]]. discriminate.
    + simpl. now rewrite Hd.
  - intro H. simpl. now rewrite Hc.
Qed.

Lemma collapsed_trimEnd :
  forall s b, collapsedFrom b s -> collapsedFrom b (trimEnd s).
Proof.
  induction s as [|c r IH]; intros b H; simpl in *; [trivial|].
  destruct (isSpace c) eqn:Hc; simpl.
  - destruct H as [Hc' [Hb H]].
    destruct (isEmpty (trimEnd r)); simpl; [trivial|].
    rewrite Hc. repeat split; auto.
  - simpl. rewrite Hc. auto.
Qed.

Lemma trimEnd_idem : forall s, trimEnd (trimEnd s) = trimEnd s.
Proof.
  induction s as [|c r IH]; simpl; [reflexivity|].
  destruct (isSpace c && isEmpty (trimEnd r)) eqn:E; simpl; [reflexivity|].
  now rewrite IH, E.
Qed.

Lemma trimStart_head :
  forall s, trimStart s = EmptyString
            \/ exists c r, trimStart s = String c r /\ isSpace c = false.
Proof.
  induction s as [|c r IH]; simpl; [now left|].
  destruct (isSpace c) eqn:Hc; [exact IH|].
  right. now exists c, r.
Qed.

Lemma trim_idem : forall s, trim (trim s) = trim s.
Proof.
  intro s. unfold trim.
  destruct (trimStart_head s) as [-> | [c [r [-> Hc]]]]; [reflexivity|].
  assert (Hcons : forall r', trimEnd (String c r') = String c (trimEnd r'))
    by (intro r'; simpl; now rewrite Hc).
  rewrite Hcons. simpl trimStart. rewrite Hc, Hcons.
  now rewrite trimEnd_idem.
Qed.

Lemma clean_idem : forall s, clean (clean s) = clean s.
Proof.
  intro s. unfold clean, collapseWs.
  assert (H : collapsedFrom false (trim (collapseFrom false s))).
  { unfold trim. apply collapsed_trimEnd, collapsed_trimStart,
      collapseFrom_collapsed. }
  rewrite (collapsed_fixed _ _ H). apply trim_idem.
Qed.

Lemma startsWith_lower :
  forall p s, startsWith p s = true ->
              startsWith (toLowerCase p) (toLowerCase s) = true.
Proof.
  induction p as [|a p IH]; intros s H; simpl in *; [reflexivity|].
  destruct s as [|b s]; [discriminate|]. simpl.
  apply andb_prop in H. destruct H as [Hab H].
  apply Ascii.eqb_eq in Hab. subst b.
  rewrite Ascii.eqb_refl. simpl. now apply IH.
Qed.

(** *** Stored items *)


Lemma not_placeholder_meaningful :
  forall t, clean t = t -> isPlaceholderText t = false -> meaningful t.
Proof.
  intros t Hc H. unfold isPlaceholderText in H. rewrite Hc in H.
  destruct (isEmpty t) eqn:He; [discriminate|].
  destruct (String.eqb (toLowerCase t) "none" || String.eqb (toLowerCase t) "n/a"
            || String.eqb (toLowerCase t) "na" || String.eqb (toLowerCase t) "-")
    eqn:Hw; [discriminate|].
  destruct (startsWith "no " (toLowerCase t) || startsWith "none " (toLowerCase t)
            || startsWith "please visit" (toLowerCase t)) eqn:Hp; [discriminate|].
  apply orb_false_elim in Hw. destruct Hw as [Hw H4].
  apply orb_false_elim in Hw. destruct Hw as [Hw H3].
  apply orb_false_elim in Hw. destruct Hw as [H1 H2].
  apply orb_false_elim in Hp. destruct Hp as [Hp P3].
  apply orb_false_elim in Hp. destruct Hp as [P1 P2].
  apply String.eqb_neq in H1, H2, H3, H4.
  apply Nat.ltb_ge in H.
  assert (Hlow : forall w, toLowerCase w = w -> toLowerCase t <> w ->
                           t <> w /\ toLowerCase t <> w).
  { intros w Hw Hn. split; [|exact Hn]. intros ->. now apply Hn. }
  assert (Hpre : forall p, toLowerCase p = p ->
                           startsWith p (toLowerCase t) = false ->
                           startsWith p t = false
                           /\ startsWith p (toLowerCase t) = false).
  { intros p Hp Hn. split; [|exact Hn].
    destruct (startsWith p t) eqn:E; [|reflexivity].
    apply startsWith_lower in E. rewrite Hp in E. congruence. }
  unfold meaningful. rewrite Hc.
  split; [reflexivity|]. split; [intros ->; discriminate|].
  split; [|split; [|exact H]].
  - intros w [<- | [<- | [<- | [<- | []]]]]; now apply Hlow.
  - intros p [<- | [<- | [<- | []]]]; now apply Hpre.
Qed.

Lemma normalizeItem_meaningful :
  forall i it, normalizeItem i = Ok (Some it) -> meaningful (text it).
Proof.
  intros i it H. unfold normalizeItem in H.
  set (txt := match getProp i "text" with
              | Some (JStr s) => s
              | _ => join " | " (flat_map entryPart (entries i))
              end) in H.
  destruct (isPlaceholderText (clean txt)) eqn:Hp;
    destruct i; try discriminate; injection H as <-; simpl;
    (apply not_placeholder_meaningful; [apply clean_idem | exact Hp]).
Qed.

Lemma normalizeItems_meaningful :
  forall items l, normalizeItems items = Ok l ->
                  Forall (fun it => meaningful (text it)) l.
Proof.
  induction items as [|i items IH]; intros l H; simpl in H.
  - injection H as <-. constructor.
  - destruct (normalizeItem i) as [o|] eqn:Hi; [|discriminate].
    destruct (normalizeItems items) as [l'|]; [|discriminate].
    injection H as <-. specialize (IH l' eq_refl).
    destruct o as [it|]; [|exact IH].
    constructor; [|exact IH]. eapply normalizeItem_meaningful; eauto.
Qed.

Lemma normalizeCategory_meaningful :
  forall data key l, normalizeCategory data key = Ok l ->
                     Forall (fun it => meaningful (text it)) l.
Proof.
  intros data key l H. unfold normalizeCategory in H.
  destruct data; try discriminate;
    match type of H with
    | match ?items with _ => _ end = _ =>
        destruct items as [| | | |els|ps]; try discriminate
    end;
    try (now apply normalizeItems_meaningful in H);
    try (destruct (lookup "length" ps) as [[| |[] ?| | |]|]; try discriminate;
         injection H as <-; constructor).
Qed.


Lemma setBucket_wellFormed :
  forall c items b,
    items <> [] -> Forall (fun it => meaningful (text it)) items ->
    wellFormed b -> wellFormed (setBucket c items b).
Proof.
  intros c items b Hne Hall. induction b as [|[c' old] b IH]; intros Hwf; simpl.
  - intros c0 items0 [H | []]. injection H as <- <-. now split.
  - destruct (Category_eqb c c').
    + intros c0 items0 [H | H].
      * injection H as <- <-. now split.
      * apply (Hwf c0 items0). now right.
    + intros c0 items0 [H | H].
      * apply (Hwf c0 items0). now left.
      * apply (IH (fun c1 i1 H1 => Hwf c1 i1 (or_intror H1)) c0 items0 H).
Qed.

Lemma processKeys_wellFormed :
  forall keys data b,
    wellFormed b -> wellFormed (fst (processKeys keys data b)).
Proof.
  induction keys as [|key keys IH]; intros data b Hwf; simpl; [exact Hwf|].
  destruct (normalizeCategory data key) as [l|] eqn:Hn; [|exact Hwf].
  destruct l as [|it l]; [now apply IH|].
  apply IH. apply setBucket_wellFormed; [discriminate | | exact Hwf].
  eapply normalizeCategory_meaningful; eauto.
Qed.

Lemma Category_eqb_eq : forall a b, Category_eqb a b = true -> a = b.
Proof. intros [] []; simpl; congruence. Qed.

Lemma getBucket_In :
  forall b c items, getBucket b c = Some items -> In (c, items) b.
Proof.
  induction b as [|[c' old] b IH]; intros c items H; simpl in H; [discriminate|].
  destruct (Category_eqb c c') eqn:E.
  - apply Category_eqb_eq in E. injection H as <-. subst. now left.
  - right. now apply IH.
Qed.


(** C7.  Whatever the categorizer answered, and whether or not the
    normalization ran to its end, every bucket that
    [processStructuredKnowledge] leaves in the state is non-empty and every
    stored text is clean (collapsing and trimming leave it unchanged), not
    empty, not one of none, n/a, na, - (in any letter case), without the
    prefixes [no ], [none ], [please visit], and at least 3 characters
    long.  The item with text N/A is dropped, and its category with it when
    nothing else survives; the item with text [  ok value  ] is stored as
    [ok value]. *)
Theorem stored_items_are_meaningful :
  forall data,
    wellFormed (fst (processStructuredKnowledge data))
    /\ (forall c items,
           getBucket (fst (processStructuredKnowledge data)) c = Some items ->
           items <> [] /\ Forall (fun it => meaningful (text it)) items)
    /\ normalizeItem itemNA = Ok None
    /\ normalizeItem itemOk = Ok (Some (mkItem (JInt 1) "ok value"))
    /\ processStructuredKnowledge (JObj [("safety", JArr [itemNA])])
       = ([], Ok tt)
    /\ processStructuredKnowledge (JObj [("safety", JArr [itemNA; itemOk])])
       = ([(safety, [mkItem (JInt 1) "ok value"])], Ok tt).
Proof.
  intro data.
  assert (Hwf : wellFormed (fst (processStructuredKnowledge data))).
  { apply processKeys_wellFormed. intros c items []. }
  split; [exact Hwf|]. split.
  - intros c items H. apply (Hwf c items). now apply getBucket_In.
  - repeat split; reflexivity.
Qed.

(** *** Substrings *)

Lemma indexOf_none :
  forall p s, includes p s = false -> indexOf p s = None.
Proof.
  intros p s. induction s as [|c r IH]; simpl; intro H.
  - apply orb_false_elim in H. destruct H as [H _].
    destruct p; [discriminate | reflexivity].
  - apply orb_false_elim in H. destruct H as [H1 H2].
    rewrite H1. now rewrite IH.
Qed.

Lemma lastIndexOf_none :
  forall p s, includes p s = false -> lastIndexOf p s = None.
Proof.
  intros p s. induction s as [|c r IH]; simpl; intro H.
  - apply orb_false_elim in H. destruct H as [H _].
    destruct p; [discriminate | reflexivity].
  - apply orb_false_elim in H. destruct H as [H1 H2].
    now rewrite IH, H1.
Qed.

Lemma startsWith_takeChars :
  forall p n s, startsWith p (takeChars n s) = true -> startsWith p s = true.
Proof.
  induction p as [|a p IH]; intros n s H; [reflexivity|].
  destruct n as [|n]; [discriminate|].
  destruct s as [|b s]; [discriminate|].
  simpl in *. apply andb_prop in H. destruct H as [H1 H2].
  rewrite H1. simpl. eapply IH; eauto.
Qed.

Lemma includes_takeChars :
  forall p n s, includes p s = false -> includes p (takeChars n s) = false.
Proof.
  intros p n s. revert n. induction s as [|c r IH]; intros n H.
  - destruct n; exact H.
  - simpl in H. apply orb_false_elim in H. destruct H as [H1 H2].
    destruct n as [|n].
    + simpl. destruct p; [discriminate | reflexivity].
    + simpl. rewrite (IH n H2), orb_false_r.
      destruct (startsWith p (String c (takeChars n r))) eqn:E; [|reflexivity].
      apply (startsWith_takeChars p (S n) (String c r)) in E. congruence.
Qed.

Lemma includes_dropChars :
  forall p n s, includes p s = false -> includes p (dropChars n s) = false.
Proof.
  intros p n. induction n as [|n IH]; intros s H; [exact H|].
  destruct s as [|c r]; [exact H|].
  simpl. apply IH. simpl in H. apply orb_false_elim in H. tauto.
Qed.

Lemma trimStart_suffix : forall s, exists n, trimStart s = dropChars n s.
Proof.
  induction s as [|c r [n IH]]; [now exists O|].
  simpl. destruct (isSpace c); [exists (S n); exact IH | now exists O].
Qed.

Lemma trimEnd_prefix : forall s, exists n, trimEnd s = takeChars n s.
Proof.
  induction s as [|c r [n IH]]; [now exists O|].
  simpl. destruct (isSpace c && isEmpty (trimEnd r)).
  - now exists O.
  - exists (S n). simpl. now rewrite IH.
Qed.

Lemma includes_trim :
  forall p s, includes p s = false -> includes p (trim s) = false.
Proof.
  intros p s H. unfold trim.
  destruct (trimEnd_prefix (trimStart s)) as [n ->].
  apply includes_takeChars.
  destruct (trimStart_suffix s) as [m ->].
  now apply includes_dropChars.
Qed.

Lemma includes_stripFences :
  forall p s, includes p s = false -> includes p (stripFences s) = false.
Proof.
  intros p s H. unfold stripFences.
  apply includes_trim.
  assert (H1 : includes p (trim s) = false) by now apply includes_trim.
  assert (H2 : includes p
                 (if startsWith jsonFence (trim s) then dropChars 7 (trim s)
                  else if startsWith fence (trim s) then dropChars 3 (trim s)
                  else trim s) = false).
  { destruct (startsWith jsonFence (trim s));
      [now apply includes_dropChars|].
    destruct (startsWith fence (trim s));
      [now apply includes_dropChars | exact H1]. }
  destruct (endsWith fence _); [|exact H2].
  unfold dropLast. now apply includes_takeChars.
Qed.

(** *** The repair ladder *)


(** C4 (amended).  [parseJSONFromResponse] returns the object with [a]
    equal to 1 for the fenced input and for the input with a trailing comma
    (which a direct parse refuses); for an input without an opening or
    without a closing brace it returns what the direct parse of the
    trimmed, fence-stripped text returns, and throws when that parse
    fails. *)
Theorem parseJSONFromResponse_ladder :
  parseJSONFromResponse fencedA1 = Ok objA1
  /\ parseJSONFromResponse trailingCommaA1 = Ok objA1
  /\ JSON_parse trailingCommaA1 = None
  /\ (forall s,
        includes "{" s = false \/ includes "}" s = false ->
        parseJSONFromResponse s =
        match JSON_parse (stripFences s) with
        | Some v => Ok v
        | None => Throw noObjectMsg
        end).
Proof.
  split; [reflexivity|]. split; [reflexivity|]. split; [reflexivity|].
  intros s H. unfold parseJSONFromResponse.
  destruct (JSON_parse (stripFences s)); [reflexivity|].
  destruct H as [H | H].
  - now rewrite (indexOf_none _ _ (includes_stripFences _ _ H)).
  - rewrite (lastIndexOf_none _ _ (includes_stripFences _ _ H)).
    now destruct (indexOf "{" (stripFences s)).
Qed.

(** C4 as stated fails: a JSON array has no brace and is returned, not
    refused. *)
Lemma no_brace_counterexample :
  includes "{" "[1]" = false
  /\ includes "}" "[1]" = false
  /\ parseJSONFromResponse "[1]" = Ok (JArr [JInt 1]).
Proof. repeat split. Qed.

(** *** Failure of the categorize step *)

Lemma processKeys_throw :
  forall keys data b b' m,
    processKeys keys data b = (b', Throw m) ->
    exists done failing rest,
      keys = (done ++ failing :: rest)%list
      /\ normalizeCategory data failing = Throw m
      /\ processKeys done data b = (b', Ok tt).
Proof.
  induction keys as [|key keys IH]; intros data b b' m H; simpl in H;
    [discriminate|].
  destruct (normalizeCategory data key) as [l|m'] eqn:Hn.
  - assert (Hrec : exists b0, processKeys keys data b0 = (b', Throw m)
               /\ forall done, processKeys (key :: done) data b
                               = processKeys done data b0).
    { destruct l as [|it l].
      - exists b. split; [exact H|]. intro done. simpl. now rewrite Hn.
      - exists (setBucket key (it :: l) b). split; [exact H|].
        intro done. simpl. now rewrite Hn. }
    destruct Hrec as [b0 [H0 Hstep]].
    destruct (IH data b0 b' m H0) as [done [failing [rest [-> [Hf Hd]]]]].
    exists (key :: done), failing, rest.
    split; [reflexivity|]. split; [exact Hf|]. now rewrite Hstep.
  - injection H as <- <-.
    exists [], key, keys. repeat split. exact Hn.
Qed.

(** C3 (amended).  When the categorize step fails before normalization
    (the JSON-mode call and its fallback both fail, or the answer is
    [null]) the stored buckets are what they were.  When it fails inside
    normalization, the stored buckets are what the categories before the
    failing one give, starting from the empty mapping: the previous buckets
    are gone and the categories already normalized are kept. *)
Theorem categorize_failure_semantics :
  forall st llm compressedPages m,
    snd (categorize st llm compressedPages) = Throw m ->
    let st' := fst (categorize st llm compressedPages) in
    match fetchStructuredData (geminiKey st) llm (fullPromptOf compressedPages) with
    | Throw _ => knowledgeBuckets st' = knowledgeBuckets st
    | Ok structuredData =>
        match ensureCategories structuredData with
        | Throw _ => knowledgeBuckets st' = knowledgeBuckets st
        | Ok data =>
            exists done failing rest,
              CATEGORIES = (done ++ failing :: rest)%list
              /\ normalizeCategory data failing = Throw m
              /\ processKeys done data [] = (knowledgeBuckets st', Ok tt)
        end
    end.
Proof.
  intros st llm cps m H st'. subst st'. unfold categorize in *.
  destruct (fetchStructuredData (geminiKey st) llm (fullPromptOf cps))
    as [v|m1]; [|reflexivity].
  destruct (ensureCategories v) as [data|m2]; [|reflexivity].
  destruct (processStructuredKnowledge data) as [b r] eqn:Hp.
  simpl in *. subst r.
  exact (processKeys_throw _ _ _ _ _ Hp).
Qed.


Lemma categorize_failure_semantics_witness :
  snd (categorize staleState halfBadModel []) = Throw "Cannot read properties of null"
  /\ exists done failing rest,
       CATEGORIES = (done ++ failing :: rest)%list
       /\ normalizeCategory
            (JObj [("safety", JArr [JObj [("page", JInt 1); ("text", JStr "Hot surface")]]);
                   ("parts", JArr [JNull]); ("warranty", JArr []);
                   ("procedures", JArr []); ("errors", JArr []); ("video", JArr [])])
            failing = Throw "Cannot read properties of null"
       /\ processKeys done
            (JObj [("safety", JArr [JObj [("page", JInt 1); ("text", JStr "Hot surface")]]);
                   ("parts", JArr [JNull]); ("warranty", JArr []);
                   ("procedures", JArr []); ("errors", JArr []); ("video", JArr [])])
            [] = ([(safety, [mkItem (JInt 1) "Hot surface"])], Ok tt).
Proof.
  split; [reflexivity|].
  exact (categorize_failure_semantics staleState halfBadModel []
           "Cannot read properties of null" eq_refl).
Defined.

(** C3 as stated fails: a [null] item in the second category makes the
    normalization throw after the first category was stored over the
    emptied mapping. *)
Lemma atomic_replacement_counterexample :
  snd (categorize staleState halfBadModel []) = Throw "Cannot read properties of null"
  /\ knowledgeBuckets staleState = [(warranty, [mkItem (JInt 2) "Two years"])]
  /\ knowledgeBuckets (fst (categorize staleState halfBadModel []))
     = [(safety, [mkItem (JInt 1) "Hot surface"])]
  /\ knowledgeBuckets (fst (categorize staleState halfBadModel []))
     <> knowledgeBuckets staleState.
Proof.
  repeat split. discriminate.
Qed.

End CategorizerProofs.

(* ========================================================================= *)
(** ** Properties of the Retrieval Context Builder *)
(* ========================================================================= *)

Module RetrievalProofs.
Import JsString Json Categorizer Retrieval.

(** *** Intent detection *)

Lemma find_all_false :
  forall {A : Type} (f : A -> bool) l,
    (forall x, In x l -> f x = false) -> find f l = None.
Proof.
  intros A f l. induction l as [|a l IH]; intro H; simpl; [reflexivity|].
  rewrite (H a) by now left. apply IH. intros x Hx. apply H. now right.
Qed.

Lemma existsb_all_false :
  forall {A : Type} (f : A -> bool) l,
    (forall x, In x l -> f x = false) -> existsb f l = false.
Proof.
  intros A f l. induction l as [|a l IH]; intro H; simpl; [reflexivity|].
  rewrite (H a) by now left. apply IH. intros x Hx. apply H. now right.
Qed.

Lemma detectIntent_spec : forall q, detectIntent q = intentSpec q.
Proof.
  intro q. unfold detectIntent, intentSpec, intentGroups, matchesAny.
  cbn [find snd fst].
  repeat match goal with
         | |- context [if existsb ?f ?l then _ else _] =>
             destruct (existsb f l)
         end; reflexivity.
Qed.

(** C8.  The intent detection of [handleChat] is the first keyword group,
    in the order safety, parts, warranty, errors, video, with a keyword in
    the lower-cased query, and [procedures] when no group has one; the
    query about the warranty period selects [warranty]. *)
Theorem intent_detection_priority :
  (forall q, detectIntent q = intentSpec q)
  /\ detectIntent "What's the warranty period?" = warranty
  /\ (forall q,
        (forall g kw, In g intentGroups -> In kw (snd g) ->
                      includes kw (toLowerCase q) = false) ->
        detectIntent q = procedures).
Proof.
  split; [exact detectIntent_spec|]. split; [reflexivity|].
  intros q H. rewrite detectIntent_spec. unfold intentSpec.
  rewrite find_all_false; [reflexivity|].
  intros g Hg. apply existsb_all_false. intros kw Hkw. now apply (H g kw).
Qed.

(** *** Context assembly *)

Lemma isEmpty_true : forall s, isEmpty s = true -> s = "".
Proof. intros [|c r]; [reflexivity | discriminate]. Qed.

Lemma substringTo_length :
  forall s n, 0 <= n -> Z.of_nat (String.length (substringTo n s)) <= n.
Proof.
  induction s as [|c r IH]; intros n Hn; simpl; [lia|].
  destruct (Z.leb_spec n 0); simpl; [lia|].
  specialize (IH (n - 1)). lia.
Qed.

Lemma join_cons_nonempty :
  forall sep c r l, exists r', join sep (String c r :: l) = String c r'.
Proof.
  intros sep c r l. unfold join. simpl.
  destruct l; [now exists r | eexists; reflexivity].
Qed.

Lemma allContext_nonempty :
  forall b c items,
    In (c, items) b -> items <> [] -> allContext b <> "".
Proof.
  intros b c items Hin Hne. unfold allContext.
  destruct (List.concat (map snd b)) as [|it l] eqn:E.
  - exfalso. destruct items as [|i items]; [now apply Hne|].
    assert (Hi : In i (List.concat (map snd b))).
    { apply in_concat. exists (i :: items). split; [|now left].
      apply in_map_iff. exists (c, i :: items). now split. }
    rewrite E in Hi. exact Hi.
  - simpl map.
    assert (Hhead : exists r, renderItem it = String "[" r)
      by (eexists; reflexivity).
    destruct Hhead as [r ->].
    destruct (join_cons_nonempty newline "[" r (map renderItem l))
      as [r' ->].
    discriminate.
Qed.


Lemma substringTo_takeChars :
  forall s n, 0 <= n -> substringTo n s = takeChars (Z.to_nat n) s.
Proof.
  induction s as [|c r IH]; intros n Hn; simpl.
  - now destruct (Z.to_nat n).
  - destruct (Z.leb_spec n 0).
    + replace n with 0 by lia. reflexivity.
    + replace (Z.to_nat n) with (S (Z.to_nat (n - 1))) by lia.
      simpl. now rewrite IH by lia.
Qed.

Lemma takeChars_prefix :
  forall n s,
    (exists rest, s = takeChars n s ++ rest)
    /\ String.length (takeChars n s) = Nat.min n (String.length s).
Proof.
  induction n as [|n IH]; intros [|c r]; simpl.
  - split; [now exists "" | reflexivity].
  - split; [now exists (String c r) | reflexivity].
  - split; [now exists "" | reflexivity].
  - destruct (IH r) as [[rest Hrest] Hlen]. split.
    + exists rest. now rewrite <- Hrest.
    + now rewrite Hlen.
Qed.

Lemma concat_flat_map_snd :
  forall (b : Buckets), List.concat (map snd b) = itemsOfAll b.
Proof.
  induction b as [|[k items] b IH]; simpl; [reflexivity | now rewrite IH].
Qed.

Lemma categoryContext_spec :
  forall b c, categoryContext b c = categoryCandidate b c.
Proof.
  intros b c. unfold categoryContext, categoryCandidate, itemsOfCategory.
  destruct (getBucket b c); reflexivity.
Qed.

Lemma allContext_spec : forall b, allContext b = flattenedCandidate b.
Proof.
  intro b. unfold allContext, flattenedCandidate.
  now rewrite concat_flat_map_snd.
Qed.

Lemma rawContext_spec : forall pages, rawContext pages = rawCandidate pages.
Proof.
  intro pages. unfold rawContext, rawCandidate, rawLines, rawBudget.
  now rewrite substringTo_takeChars by lia.
Qed.

Lemma buildContext_chain :
  forall st category,
    buildContext st category
    = firstNonEmpty [categoryContext (knowledgeBuckets st) category;
                     allContext (knowledgeBuckets st);
                     rawContext (pdfPages st)].
Proof.
  intros st category. unfold buildContext, firstNonEmpty. cbv zeta.
  fold (categoryContext (knowledgeBuckets st) category).
  destruct (isEmpty (categoryContext (knowledgeBuckets st) category)) eqn:E1;
    [|now rewrite E1].
  destruct (isEmpty (allContext (knowledgeBuckets st))) eqn:E2;
    [|reflexivity].
  simpl. destruct (pdfPages st) as [|p ps] eqn:Ep.
  - simpl. now apply isEmpty_true.
  - replace (0 <? Z.of_nat (List.length (p :: ps))) with true
      by (symmetry; apply Z.ltb_lt; simpl; lia).
    destruct (isEmpty (rawContext (p :: ps))) eqn:E3; [|reflexivity].
    now apply isEmpty_true.
Qed.

Lemma join_lines_nonempty :
  forall sep i l, join sep (map itemLine (i :: l)) <> "".
Proof.
  intros sep i l. simpl map.
  assert (Hhead : exists r, itemLine i = String "[" r)
    by (eexists; reflexivity).
  destruct Hhead as [r ->].
  destruct (join_cons_nonempty sep "[" r (map itemLine l)) as [r' ->].
  discriminate.
Qed.

Lemma itemsOfCategory_in_all :
  forall b c, itemsOfAll b = [] -> itemsOfCategory b c = [].
Proof.
  intros b c. unfold itemsOfCategory, itemsOfAll.
  induction b as [|[k items] b IH]; simpl; [reflexivity|].
  intro H. apply app_eq_nil in H. destruct H as [-> H].
  destruct (Category_eqb c k); [reflexivity | now apply IH].
Qed.

(** C9.  The context assembled by [handleChat] is the first non-empty of:
    (1) the items of the detected category, each rendered [[Page p] text],
    joined by the separator line (three dashes on their own line); (2) the
    items of all buckets, flattened in bucket order, in the same rendering,
    one per line; (3) the raw pages rendered [[Page p] text], one per line,
    cut at 30000 characters.  So a category with an item gives (1); a
    category that is absent or empty, with an item in some bucket, gives
    (2), which is not empty; no item at all gives (3), which is the first
    30000 characters of the rendered pages, all of them when they are
    shorter.  A warranty question on a state with a safety bucket only gets
    the flattened text, a safety question the two items around the
    separator line, and a question on a state without buckets the rendered
    pages. *)
Theorem context_fallback_chain :
  forall st category,
    buildContext st category = contextSpec st category
    /\ (itemsOfCategory (knowledgeBuckets st) category <> [] ->
        buildContext st category
        = categoryCandidate (knowledgeBuckets st) category)
    /\ (itemsOfCategory (knowledgeBuckets st) category = [] ->
        itemsOfAll (knowledgeBuckets st) <> [] ->
        buildContext st category = flattenedCandidate (knowledgeBuckets st)
        /\ buildContext st category <> "")
    /\ (itemsOfAll (knowledgeBuckets st) = [] ->
        buildContext st category = rawCandidate (pdfPages st))
    /\ (exists rest, rawLines (pdfPages st) = rawCandidate (pdfPages st) ++ rest)
    /\ Z.of_nat (String.length (rawCandidate (pdfPages st)))
       = Z.min 30000 (Z.of_nat (String.length (rawLines (pdfPages st))))
    /\ handleChat safetyOnlyState "What's the warranty period?"
       = (warranty,
          "[Page 4] Hot surface" ++ newline ++ "[Page 9] Unplug first")
    /\ handleChat safetyOnlyState "Is it safe to open the cover?"
       = (safety,
          "[Page 4] Hot surface" ++ newline ++ "---" ++ newline
          ++ "[Page 9] Unplug first")
    /\ handleChat pagesOnlyState "How do I begin?"
       = (procedures,
          "[Page 1] Owner manual" ++ newline ++ "[Page 2] Read me first").
Proof.
  intros st category.
  assert (Hchain : buildContext st category = contextSpec st category).
  { rewrite buildContext_chain. unfold contextSpec.
    now rewrite categoryContext_spec, allContext_spec, rawContext_spec. }
  split; [exact Hchain|].
  split; [|split; [|split; [|split; [|split]]]].
  - intro Hne. rewrite Hchain. unfold contextSpec, categoryCandidate.
    destruct (itemsOfCategory (knowledgeBuckets st) category) as [|i l];
      [now elim Hne|].
    pose proof (join_lines_nonempty dashLine i l) as Hn.
    cbn [firstNonEmpty].
    destruct (join dashLine (map itemLine (i :: l))); [now elim Hn | reflexivity].
  - intros Hnone Hsome.
    assert (Heq : buildContext st category
                  = flattenedCandidate (knowledgeBuckets st)).
    { rewrite Hchain. unfold contextSpec, categoryCandidate, flattenedCandidate.
      rewrite Hnone.
      destruct (itemsOfAll (knowledgeBuckets st)) as [|i l]; [now elim Hsome|].
      pose proof (join_lines_nonempty newline i l) as Hn.
      change (join dashLine (map itemLine [])) with "".
      cbn [firstNonEmpty isEmpty].
      destruct (join newline (map itemLine (i :: l)));
        [now elim Hn | reflexivity]. }
    split; [exact Heq|]. rewrite Heq. unfold flattenedCandidate.
    destruct (itemsOfAll (knowledgeBuckets st)) as [|i l]; [now elim Hsome|].
    apply join_lines_nonempty.
  - intro Hnone. rewrite Hchain.
    unfold contextSpec, categoryCandidate, flattenedCandidate.
    rewrite (itemsOfCategory_in_all _ category Hnone), Hnone.
    change (join dashLine (map itemLine [])) with "".
    change (join newline (map itemLine [])) with "".
    cbn [firstNonEmpty isEmpty].
    now destruct (rawCandidate (pdfPages st)).
  - apply (takeChars_prefix rawBudget (rawLines (pdfPages st))).
  - destruct (takeChars_prefix rawBudget (rawLines (pdfPages st))) as [_ Hlen].
    unfold rawCandidate. rewrite Hlen. unfold rawBudget. lia.
  - repeat split; vm_compute; reflexivity.
Qed.

End RetrievalProofs.

(* ========================================================================= *)
(** ** Further properties of the Compression Adapter *)
(* ========================================================================= *)

Module CompressionExtras.
Import JsString Json Compression CompressionProofs Notions.

Lemma compressPage_shape :
  forall apiKey model svc c l p,
    exists l',
      (keptPage p = false
       /\ compressPage apiKey model svc (c, l) p = (c, l) /\ l' = l)
      \/ (keptPage p = true
          /\ exists e, entryOf e p
                       /\ compressPage apiKey model svc (c, l) p
                          = ((c ++ [e])%list, l')).
Proof.
  intros apiKey model svc c l p. unfold compressPage, keptPage, entryOf.
  destruct (String.length (text p) <? 50)%nat eqn:Hlen; simpl.
  - exists l. destruct (0 <? String.length (trim (text p)))%nat; simpl.
    + right. split; [reflexivity|]. eexists. split; [|reflexivity].
      simpl. split; [reflexivity | now left].
    + left. repeat split.
  - apply Nat.ltb_ge in Hlen.
    destruct (callScaleDown apiKey svc l (mkRequest (text p) cleaningPrompt model 95))
      as [summary l'].
    exists l'. right. split; [reflexivity|].
    destruct (accepted summary) eqn:Hacc; eexists; (split; [|reflexivity]); simpl.
    + split; [reflexivity | right; now split].
    + split; [reflexivity | now left].
Qed.

(** X1.  Whatever the key and the service do, the compressed batch follows
    the pages in order and drops only the short blank ones: its entries
    stand one for one for the kept pages, each with the number of its page
    and either the text of the page or an accepted summary of a page of at
    least 50 characters. *)
Theorem batch_follows_page_order :
  forall apiKey model svc log pages,
    Forall2 entryOf
            (fst (compressLoop apiKey model svc ([], log) pages))
            (filter keptPage pages).
Proof.
  intros apiKey model svc log pages.
  assert (H : forall ps c l done,
             Forall2 entryOf c done ->
             Forall2 entryOf (fst (compressLoop apiKey model svc (c, l) ps))
                     (done ++ filter keptPage ps)%list).
  { induction ps as [|p ps IH]; intros c l done Hc.
    - simpl. now rewrite app_nil_r.
    - rewrite compressLoop_cons.
      destruct (compressPage_shape apiKey model svc c l p)
        as [l' [[Hk [-> _]] | [Hk [e [He ->]]]]]; simpl; rewrite Hk.
      + now apply IH.
      + replace (done ++ p :: filter keptPage ps)%list
          with ((done ++ [p]) ++ filter keptPage ps)%list
          by (now rewrite <- app_assoc).
        apply IH. apply Forall2_app; [exact Hc | now constructor]. }
  apply (H pages [] log []). constructor.
Qed.

(** X2.  With a key configured the loop sends exactly one request for each
    page of at least 50 characters, in page order, each carrying the text of
    its page, and no other request. *)
Theorem one_request_per_long_page :
  forall apiKey model svc pages,
    isEmpty apiKey = false ->
    snd (compressLoop apiKey model svc ([], []) pages)
    = map (requestOf model) (filter longPage pages).
Proof.
  intros apiKey model svc pages Hkey.
  assert (H : forall ps c l,
             snd (compressLoop apiKey model svc (c, l) ps)
             = (l ++ map (requestOf model) (filter longPage ps))%list).
  { induction ps as [|p ps IH]; intros c l.
    - simpl. now rewrite app_nil_r.
    - rewrite compressLoop_cons. cbn [filter].
      assert (Hlong : longPage p = negb (String.length (text p) <? 50)%nat)
        by reflexivity.
      rewrite Hlong. unfold compressPage.
      destruct (String.length (text p) <? 50)%nat eqn:Hlen; cbn [negb].
      + destruct (0 <? String.length (trim (text p)))%nat; apply IH.
      + unfold callScaleDown. rewrite Hkey.
        destruct (scaleDownTry _); destruct (accepted _);
          rewrite IH; cbn [map]; unfold requestOf; now rewrite <- app_assoc. }
  apply (H pages [] []).
Qed.

Lemma one_request_per_long_page_witness :
  snd (compressLoop "sk-live" "gpt-4o" (fun _ _ => NetworkError) ([], [])
         [mkPage 1 "Cover";
          mkPage 2 "WARNING: Disconnect the power cord before opening the rear cover."])
  = [mkRequest "WARNING: Disconnect the power cord before opening the rear cover."
               cleaningPrompt "gpt-4o" 95].
Proof.
  exact (one_request_per_long_page "sk-live" "gpt-4o" (fun _ _ => NetworkError)
           [mkPage 1 "Cover";
            mkPage 2 "WARNING: Disconnect the power cord before opening the rear cover."]
           eq_refl).
Defined.

(** X3.  When the service answers 401 or 403, [callScaleDown] returns
    [Invalid ScaleDown Key] and the page is pushed with its own text. *)
Theorem rejected_key_keeps_page_text :
  forall apiKey model svc c l p status body,
    isEmpty apiKey = false ->
    (50 <= String.length (text p))%nat ->
    svc l (requestOf model p) = Response status body ->
    status = 401 \/ status = 403 ->
    callScaleDown apiKey svc l (requestOf model p)
    = ("Invalid ScaleDown Key", (l ++ [requestOf model p])%list)
    /\ compressPage apiKey model svc (c, l) p
       = ((c ++ [mkCompressed (pageNum p) (text p)])%list,
          (l ++ [requestOf model p])%list).
Proof.
  intros apiKey model svc c l p status body Hkey Hlen Hsvc Hst.
  assert (Hcall : callScaleDown apiKey svc l (requestOf model p)
                  = ("Invalid ScaleDown Key", (l ++ [requestOf model p])%list)).
  { unfold callScaleDown. rewrite Hkey, Hsvc. simpl.
    destruct Hst as [-> | ->]; reflexivity. }
  split; [exact Hcall|].
  unfold compressPage. apply Nat.ltb_ge in Hlen. rewrite Hlen.
  fold (requestOf model p). rewrite Hcall. reflexivity.
Qed.

Lemma rejected_key_keeps_page_text_witness :
  compressPage "sk-old" "gpt-4o" (fun _ _ => Response 401 None) ([], [])
    (mkPage 2 "WARNING: Disconnect the power cord before opening the rear cover.")
  = ([mkCompressed 2 "WARNING: Disconnect the power cord before opening the rear cover."],
     [requestOf "gpt-4o"
        (mkPage 2 "WARNING: Disconnect the power cord before opening the rear cover.")]).
Proof.
  exact (proj2 (rejected_key_keeps_page_text "sk-old" "gpt-4o"
                  (fun _ _ => Response 401 None) [] []
                  (mkPage 2 "WARNING: Disconnect the power cord before opening the rear cover.")
                  401 None eq_refl ltac:(vm_compute; lia) eq_refl (or_introl eq_refl))).
Defined.

End CompressionExtras.

(* ========================================================================= *)
(** ** Further properties of the Text Structurer *)
(* ========================================================================= *)

Module StructurerExtras.
Import JsString Json TextStructurer StructurerProofs CategorizerProofs Notions.

Lemma rowOk_mono :
  forall F F' r, incl F F' -> rowOk F r -> rowOk F' r.
Proof.
  intros F F' r Hincl [[it0 [rest [Hr Hin]]] Hall]. split.
  - exists it0, rest. split; [exact Hr | now apply Hincl].
  - eapply Forall_impl; [|exact Hall]. intros it [y [Hy Hn]].
    exists y. split; [now apply Hincl | exact Hn].
Qed.

Lemma placeInRows_ok :
  forall F y it rows,
    Forall (rowOk F) rows ->
    Forall (rowOk (F ++ [(y, it)])) (placeInRows rows y it).
Proof.
  intros F y it rows. induction rows as [|r rows IH]; intro H; simpl.
  - constructor; [|constructor]. split; simpl.
    + exists it, []. split; [reflexivity|]. apply in_or_app. right. now left.
    + constructor; [|constructor]. exists y. split.
      * apply in_or_app. right. now left.
      * apply near_refl.
  - inversion H as [|? ? Hr Hrows]; subst.
    assert (Hincl : incl F (F ++ [(y, it)])) by (apply incl_appl, incl_refl).
    destruct (Z.abs (row_y r - y) <? rowTolerance) eqn:Hnear.
    + constructor.
      * destruct (rowOk_mono _ _ _ Hincl Hr) as [[it0 [rest [Hi Hin]]] Hall].
        split; simpl.
        -- exists it0, (rest ++ [it])%list. split; [now rewrite Hi | exact Hin].
        -- apply Forall_app. split; [exact Hall|].
           constructor; [|constructor]. exists y. split.
           ++ apply in_or_app. right. now left.
           ++ exact Hnear.
      * eapply Forall_impl; [|exact Hrows]. intros r0. now apply rowOk_mono.
    + constructor; [now apply (rowOk_mono F) | now apply IH].
Qed.

Lemma placeInRows_perm :
  forall y it rows,
    Permutation (List.concat (map row_items (placeInRows rows y it)))
                (List.concat (map row_items rows) ++ [it]).
Proof.
  intros y it rows. induction rows as [|r rows IH]; simpl; [reflexivity|].
  destruct (Z.abs (row_y r - y) <? rowTolerance); simpl.
  - rewrite <- !app_assoc. apply Permutation_app_head, Permutation_app_comm.
  - rewrite IH. now rewrite app_assoc.
Qed.

Lemma cluster_fold :
  forall F,
    Forall (rowOk F) (fold_left place F [])
    /\ Permutation (List.concat (map row_items (fold_left place F [])))
                   (map snd F).
Proof.
  induction F as [|[y it] F [IHok IHperm]] using rev_ind.
  - split; constructor.
  - rewrite fold_left_app. simpl. unfold place at 1 3. simpl. split.
    + now apply placeInRows_ok.
    + rewrite placeInRows_perm, map_app. simpl.
      now apply Permutation_app_tail.
Qed.

(** X5.  After the clustering pass every row has as reference ordinate
    the ordinate of its first fragment, and every fragment of the row lies
    within the tolerance of that ordinate. *)
Theorem clustering_respects_tolerance :
  forall height items,
    Forall (rowOk (fragments height items)) (clusterRows height items).
Proof.
  intros height items. unfold clusterRows. rewrite clusterRows_fold.
  apply cluster_fold.
Qed.

Lemma concat_map_perm :
  forall {A B : Type} (f g : A -> list B) l,
    (forall a, In a l -> Permutation (f a) (g a)) ->
    Permutation (List.concat (map f l)) (List.concat (map g l)).
Proof.
  intros A B f g l. induction l as [|a l IH]; intro H; simpl; [reflexivity|].
  apply Permutation_app; [apply H; now left|].
  apply IH. intros b Hb. apply H. now right.
Qed.

Lemma concat_perm :
  forall {A B : Type} (f : A -> list B) l l',
    Permutation l l' ->
    Permutation (List.concat (map f l)) (List.concat (map f l')).
Proof.
  intros A B f l l' Hp. induction Hp; simpl.
  - reflexivity.
  - now apply Permutation_app_head.
  - rewrite !app_assoc. apply Permutation_app_tail, Permutation_app_comm.
  - etransitivity; eassumption.
Qed.

Lemma StronglySorted_map_key :
  forall {A : Type} (key : A -> Z) (f : A -> A) l,
    (forall a, key (f a) = key a) ->
    StronglySorted (keyLe key) l -> StronglySorted (keyLe key) (map f l).
Proof.
  intros A key f l Hkey Hs. induction Hs as [|a l Hs IH Hall]; simpl.
  - constructor.
  - constructor; [exact IH|]. rewrite Forall_forall in *.
    intros b Hb. apply in_map_iff in Hb. destruct Hb as [b0 [<- Hb0]].
    specialize (Hall b0 Hb0). unfold keyLe in *. rewrite !Hkey. exact Hall.
Qed.

(** X4.  The rows handed to the line builder hold every fragment with a
    text exactly once, are in ascending order of ordinate, are never empty,
    and each has its items in ascending order of abscissa. *)
Theorem structuring_conserves_fragments :
  forall height items,
    Permutation (List.concat (map row_items (sortedRows height items)))
                (map snd (fragments height items))
    /\ StronglySorted (keyLe row_y) (sortedRows height items)
    /\ Forall (fun r => row_items r <> []
                        /\ StronglySorted (keyLe ri_x) (row_items r))
              (sortedRows height items).
Proof.
  intros height items. unfold sortedRows, clusterRows.
  rewrite clusterRows_fold.
  destruct (cluster_fold (fragments height items)) as [Hok Hperm].
  set (rows := fold_left place (fragments height items) []) in *.
  split; [|split].
  - rewrite map_map. simpl.
    rewrite (concat_map_perm (fun r => sortBy ri_x (row_items r)) row_items)
      by (intros; apply sortBy_perm).
    rewrite (concat_perm row_items _ _ (sortBy_perm row_y rows)).
    exact Hperm.
  - apply StronglySorted_map_key; [reflexivity | apply sortBy_sorted].
  - apply Forall_forall. intros r Hr.
    apply in_map_iff in Hr. destruct Hr as [r0 [<- Hr0]]. simpl.
    apply (Permutation_in _ (sortBy_perm row_y rows)) in Hr0.
    rewrite Forall_forall in Hok.
    destruct (Hok r0 Hr0) as [[it0 [rest [Hi _]]] _].
    split; [|apply sortBy_sorted].
    intro Hnil.
    pose proof (sortBy_perm ri_x (row_items r0)) as Hp.
    rewrite Hnil, Hi in Hp. apply Permutation_nil in Hp. discriminate.
Qed.

Lemma trim_head :
  forall u, trim u <> "" ->
            exists c r, trim u = String c r /\ isSpace c = false.
Proof.
  intros u Hne. unfold trim in *.
  destruct (trimStart_head u) as [E | [c [r [E Hc]]]]; rewrite E in *.
  - now elim Hne.
  - exists c, (trimEnd r). simpl. rewrite Hc. now split.
Qed.

Lemma collapsed_no_newline :
  forall s b, collapsedFrom b s -> includes newline s = false.
Proof.
  induction s as [|c r IH]; intros b H; [reflexivity|].
  change (includes newline (String c r))
    with ((Ascii.eqb (ascii_of_nat 10) c && true) || includes newline r).
  simpl in H. destruct (isSpace c) eqn:Hc.
  - destruct H as [-> [_ H]]. simpl. now apply (IH true).
  - rewrite (IH false H), orb_false_r, andb_true_r.
    destruct (Ascii.eqb_spec (ascii_of_nat 10) c) as [<- |]; [|reflexivity].
    discriminate.
Qed.

(** X6.  The structured text is a list of lines joined by line feeds in
    which no line is empty, no line contains a line feed, and every line is
    its own collapsed and trimmed form (single spaces only, none at the
    ends). *)
Theorem structured_lines_are_clean :
  forall items height,
    exists lines,
      extractStructuredText items height = join newline lines
      /\ Forall (fun l => l <> ""
                          /\ trim (collapseWs l) = l
                          /\ includes newline l = false) lines.
Proof.
  intros items height. unfold extractStructuredText.
  destruct items as [|i items]; [exists []; split; constructor|].
  eexists. split; [reflexivity|].
  apply Forall_forall. intros l Hl.
  apply in_map_iff in Hl. destruct Hl as [line [<- Hline]].
  apply filter_In in Hline. destruct Hline as [Hin Hne].
  apply in_map_iff in Hin. destruct Hin as [r [<- _]].
  unfold buildLine in *.
  set (u := join "" (lineItems (-1) 0 (row_items r))) in *.
  assert (Hu : trim u <> "") by (intro E; rewrite E in Hne; discriminate).
  destruct (trim_head u Hu) as [c [t [E Hc]]]. rewrite E.
  assert (Hcol : collapsedFrom false (trim (collapseWs (String c t)))).
  { unfold trim, collapseWs.
    apply collapsed_trimEnd, collapsed_trimStart, collapseFrom_collapsed. }
  split; [|split].
  - unfold collapseWs, trim. simpl. rewrite Hc. simpl. rewrite Hc. simpl.
    rewrite Hc. discriminate.
  - apply (clean_idem (String c t)).
  - eapply collapsed_no_newline; exact Hcol.
Qed.

(** X7.  When no item carries a text the structured text is empty. *)
Theorem no_text_gives_empty_output :
  forall items height,
    fragments height items = [] ->
    extractStructuredText items height = "".
Proof.
  intros items height H. unfold extractStructuredText.
  destruct items as [|i items]; [reflexivity|].
  unfold sortedRows, clusterRows. rewrite clusterRows_fold, H. reflexivity.
Qed.

Lemma no_text_gives_empty_output_witness :
  extractStructuredText
    [mkTextItem None (Some (10, 700)) (Some 40);
     mkTextItem (Some "") (Some (10, 680)) None] 792 = "".
Proof.
  exact (no_text_gives_empty_output
           [mkTextItem None (Some (10, 700)) (Some 40);
            mkTextItem (Some "") (Some (10, 680)) None] 792 eq_refl).
Defined.

End StructurerExtras.

(* ========================================================================= *)
(** ** Further properties of the Categorization Normalizer *)
(* ========================================================================= *)

Module CategorizerExtras.
Import JsString Json Categorizer CategorizerProofs Notions.

(** *** Fences *)

Lemma length_append :
  forall a b, String.length (a ++ b) = (String.length a + String.length b)%nat.
Proof. induction a as [|c a IH]; intro b; simpl; [reflexivity | now rewrite IH]. Qed.

Lemma dropChars_append :
  forall a b, dropChars (String.length a) (a ++ b) = b.
Proof. induction a as [|c a IH]; intro b; simpl; [now destruct b | apply IH]. Qed.

Lemma takeChars_append :
  forall a b, takeChars (String.length a) (a ++ b) = a.
Proof. induction a as [|c a IH]; intro b; simpl; [now destruct b | now rewrite IH]. Qed.

Lemma endsWith_append :
  forall a b, endsWith b (a ++ b) = true.
Proof.
  intros a b. unfold endsWith. rewrite length_append.
  replace (String.length a + String.length b - String.length b)%nat
    with (String.length a) by lia.
  rewrite dropChars_append, String.eqb_refl, andb_true_r.
  apply Nat.leb_le. lia.
Qed.

Lemma dropLast_append :
  forall a b, dropLast (String.length b) (a ++ b) = a.
Proof.
  intros a b. unfold dropLast. rewrite length_append.
  replace (String.length a + String.length b - String.length b)%nat
    with (String.length a) by lia.
  apply takeChars_append.
Qed.

Lemma trimEnd_append_fence :
  forall a, trimEnd (a ++ fence) = a ++ fence.
Proof.
  induction a as [|c a IH]; [reflexivity|].
  simpl. rewrite IH.
  destruct a; simpl; now rewrite andb_false_r.
Qed.

Lemma trimEnd_append_newline :
  forall a, trimEnd (a ++ newline) = trimEnd a.
Proof.
  induction a as [|c a IH]; [reflexivity|]. simpl. now rewrite IH.
Qed.

Lemma trim_append_newline :
  forall a, trim (a ++ newline) = trim a.
Proof.
  unfold trim. induction a as [|c a IH]; [reflexivity|].
  simpl. destruct (isSpace c); [exact IH|].
  change (String c (a ++ newline)) with (String c a ++ newline).
  apply trimEnd_append_newline.
Qed.

Lemma startsWith_prefix :
  forall p q s, startsWith (p ++ q) s = true -> startsWith p s = true.
Proof.
  induction p as [|a p IH]; intros q s H; [reflexivity|].
  destruct s as [|b s]; [discriminate|]. simpl in *.
  apply andb_prop in H. destruct H as [H1 H2].
  rewrite H1. simpl. now apply (IH q).
Qed.

Lemma startsWith_jsonFence :
  forall s, startsWith fence s = false -> startsWith jsonFence s = false.
Proof.
  intros s H. destruct (startsWith jsonFence s) eqn:E; [|reflexivity].
  apply (startsWith_prefix fence "json" s) in E. congruence.
Qed.

Lemma stripFences_plain :
  forall s,
    startsWith fence (trim s) = false -> endsWith fence (trim s) = false ->
    stripFences s = trim s.
Proof.
  intros s H1 H2. unfold stripFences.
  rewrite (startsWith_jsonFence _ H1), H1, H2. apply trim_idem.
Qed.

Lemma append_assoc :
  forall a b c : string, (a ++ b) ++ c = a ++ b ++ c.
Proof. induction a as [|x a IH]; intros b c; simpl; [reflexivity | now rewrite IH]. Qed.

Lemma stripFences_fenced :
  forall opening s,
    opening = fence \/ opening = jsonFence ->
    stripFences (fenced opening s) = trim s.
Proof.
  intros opening s Hop. unfold stripFences, fenced.
  assert (Hw : opening ++ newline ++ s ++ newline ++ fence
               = (opening ++ newline ++ s ++ newline) ++ fence)
    by (now rewrite !append_assoc).
  assert (Htrim : trim (opening ++ newline ++ s ++ newline ++ fence)
                  = opening ++ newline ++ s ++ newline ++ fence).
  { unfold trim.
    assert (Hs : forall t, trimStart (opening ++ t) = opening ++ t)
      by (intro t; destruct Hop as [-> | ->]; reflexivity).
    rewrite Hs, Hw. apply trimEnd_append_fence. }
  rewrite Htrim.
  assert (Hdrop :
    (if startsWith jsonFence (opening ++ newline ++ s ++ newline ++ fence)
     then dropChars 7 (opening ++ newline ++ s ++ newline ++ fence)
     else if startsWith fence (opening ++ newline ++ s ++ newline ++ fence)
          then dropChars 3 (opening ++ newline ++ s ++ newline ++ fence)
          else opening ++ newline ++ s ++ newline ++ fence)
    = (newline ++ s ++ newline) ++ fence)
    by (destruct Hop as [-> | ->]; simpl; now rewrite !append_assoc).
  rewrite Hdrop, endsWith_append.
  rewrite (dropLast_append (newline ++ s ++ newline) fence
           : dropLast 3 ((newline ++ s ++ newline) ++ fence) = _).
  replace (newline ++ s ++ newline) with ((newline ++ s) ++ newline)
    by (now rewrite !append_assoc).
  rewrite trim_append_newline. reflexivity.
Qed.

(** X8.  A response whose trimmed text neither starts nor ends with a
    fence parses the same with a fence line before it and a closing fence
    after it, with or without the language tag; and white space around a
    response never matters. *)
Theorem fenced_response_parses_as_content :
  forall opening s,
    opening = fence \/ opening = jsonFence ->
    startsWith fence (trim s) = false ->
    endsWith fence (trim s) = false ->
    parseJSONFromResponse (fenced opening s) = parseJSONFromResponse s
    /\ parseJSONFromResponse (trim s) = parseJSONFromResponse s.
Proof.
  intros opening s Hop H1 H2.
  assert (Ht : stripFences (trim s) = stripFences s)
    by (unfold stripFences; now rewrite trim_idem).
  unfold parseJSONFromResponse.
  rewrite Ht, (stripFences_fenced opening s Hop), (stripFences_plain s H1 H2).
  split; reflexivity.
Qed.

Lemma fenced_response_parses_as_content_witness :
  parseJSONFromResponse (fenced jsonFence (" " ++ stringify halfBadData))
  = parseJSONFromResponse (" " ++ stringify halfBadData).
Proof.
  exact (proj1 (fenced_response_parses_as_content jsonFence
                  (" " ++ stringify halfBadData)
                  (or_intror eq_refl) eq_refl eq_refl)).
Defined.

(** *** Placeholders *)

Lemma isSpace_lowerChar : forall c, isSpace (lowerChar c) = isSpace c.
Proof. intros [[] [] [] [] [] [] [] []]; reflexivity. Qed.

Lemma lowerChar_idem : forall c, lowerChar (lowerChar c) = lowerChar c.
Proof. intros [[] [] [] [] [] [] [] []]; reflexivity. Qed.

Lemma toLowerCase_idem : forall s, toLowerCase (toLowerCase s) = toLowerCase s.
Proof.
  induction s as [|c r IH]; simpl; [reflexivity|].
  now rewrite lowerChar_idem, IH.
Qed.

Lemma isEmpty_lower : forall s, isEmpty (toLowerCase s) = isEmpty s.
Proof. now intros [|c r]. Qed.

(** The lemmas on lower-casing below are about ASCII text, where it goes
    unit by unit. *)

Lemma asciiText_cons :
  forall c r, asciiText (String c r) = true ->
              (nat_of_ascii c <? 128)%nat = true /\ asciiText r = true.
Proof. intros c r H. simpl in H. now apply andb_prop in H. Qed.

Lemma length_lower :
  forall s, asciiText s = true ->
            String.length (toLowerCase s) = String.length s.
Proof.
  induction s as [|c r IH]; intro H; simpl; [reflexivity|].
  apply asciiText_cons in H. now rewrite IH.
Qed.

Lemma asciiText_collapseFrom :
  forall s b, asciiText s = true -> asciiText (collapseFrom b s) = true.
Proof.
  induction s as [|c r IH]; intros b H; simpl; [reflexivity|].
  apply asciiText_cons in H. destruct H as [Hc Hr].
  destruct (isSpace c).
  - destruct b; simpl; now apply IH.
  - simpl. rewrite Hc. now apply IH.
Qed.

Lemma asciiText_trimStart :
  forall s, asciiText s = true -> asciiText (trimStart s) = true.
Proof.
  induction s as [|c r IH]; intro H; simpl; [reflexivity|].
  destruct (isSpace c); [|exact H].
  apply asciiText_cons in H. now apply IH.
Qed.

Lemma asciiText_trimEnd :
  forall s, asciiText s = true -> asciiText (trimEnd s) = true.
Proof.
  induction s as [|c r IH]; intro H; simpl; [reflexivity|].
  apply asciiText_cons in H. destruct H as [Hc Hr].
  destruct (isSpace c && isEmpty (trimEnd r)); [reflexivity|].
  simpl. rewrite Hc. now apply IH.
Qed.

Lemma asciiText_clean :
  forall s, asciiText s = true -> asciiText (clean s) = true.
Proof.
  intros s H. unfold clean, trim, collapseWs.
  now apply asciiText_trimEnd, asciiText_trimStart, asciiText_collapseFrom.
Qed.

Lemma collapseFrom_lower :
  forall s b,
    asciiText s = true ->
    collapseFrom b (toLowerCase s) = toLowerCase (collapseFrom b s).
Proof.
  induction s as [|c r IH]; intros b H; simpl; [reflexivity|].
  apply asciiText_cons in H. destruct H as [_ Hr].
  rewrite isSpace_lowerChar. destruct (isSpace c).
  - destruct b; simpl; now rewrite IH.
  - simpl. now rewrite IH.
Qed.

Lemma trimStart_lower :
  forall s, trimStart (toLowerCase s) = toLowerCase (trimStart s).
Proof.
  induction s as [|c r IH]; simpl; [reflexivity|].
  rewrite isSpace_lowerChar. now destruct (isSpace c).
Qed.

Lemma trimEnd_lower :
  forall s, trimEnd (toLowerCase s) = toLowerCase (trimEnd s).
Proof.
  induction s as [|c r IH]; simpl; [reflexivity|].
  rewrite isSpace_lowerChar, IH, isEmpty_lower.
  now destruct (isSpace c && isEmpty (trimEnd r)).
Qed.

Lemma clean_lower :
  forall s, asciiText s = true -> clean (toLowerCase s) = toLowerCase (clean s).
Proof.
  intros s H. unfold clean, trim, collapseWs.
  now rewrite collapseFrom_lower, trimStart_lower, trimEnd_lower.
Qed.

(** X10.  The placeholder test does not depend on the amount of white
    space: a text and its collapsed and trimmed form get the same answer.
    On ASCII text it does not depend on letter case either. *)
Theorem placeholder_test_ignores_case_and_spacing :
  forall t,
    isPlaceholderText (clean t) = isPlaceholderText t
    /\ (asciiText t = true ->
        isPlaceholderText (toLowerCase t) = isPlaceholderText t).
Proof.
  intro t. split.
  - unfold isPlaceholderText. rewrite clean_idem.
    destruct (isEmpty t) eqn:Et.
    + destruct t; [reflexivity | discriminate].
    + destruct (isEmpty (clean t)); reflexivity.
  - intro Hascii. unfold isPlaceholderText.
    rewrite isEmpty_lower, (clean_lower t Hascii), isEmpty_lower,
      toLowerCase_idem, (length_lower (clean t) (asciiText_clean t Hascii)).
    reflexivity.
Qed.

Lemma placeholder_test_ignores_case_and_spacing_witness :
  isPlaceholderText (toLowerCase "N/A") = isPlaceholderText "N/A"
  /\ isPlaceholderText (toLowerCase "Torque 5 Nm") = isPlaceholderText "Torque 5 Nm".
Proof.
  split.
  - exact (proj2 (placeholder_test_ignores_case_and_spacing "N/A") eq_refl).
  - exact (proj2 (placeholder_test_ignores_case_and_spacing "Torque 5 Nm") eq_refl).
Defined.

(** *** Buckets *)

Lemma Category_eqb_refl : forall c, Category_eqb c c = true.
Proof. now intros []. Qed.

Lemma getBucket_setBucket :
  forall c items b k,
    getBucket (setBucket c items b) k
    = if Category_eqb k c then Some items else getBucket b k.
Proof.
  intros c items b k. induction b as [|[c' old] b IH]; simpl.
  - reflexivity.
  - destruct (Category_eqb c c') eqn:Ec; simpl.
    + apply Category_eqb_eq in Ec. subst c'.
      now destruct (Category_eqb k c).
    + destruct (Category_eqb k c') eqn:Ek.
      * apply Category_eqb_eq in Ek. subst c'.
        destruct (Category_eqb k c) eqn:Ekc; [|reflexivity].
        apply Category_eqb_eq in Ekc. subst c.
        rewrite Category_eqb_refl in Ec. discriminate.
      * exact IH.
Qed.

Lemma processKeys_buckets :
  forall keys data b b',
    NoDup keys ->
    (forall k, In k keys -> getBucket b k = None) ->
    processKeys keys data b = (b', Ok tt) ->
    forall k,
      getBucket b' k
      = if existsb (Category_eqb k) keys then expectedBucket data k
        else getBucket b k.
Proof.
  induction keys as [|key keys IH]; intros data b b' Hnd Hfresh H k; simpl in *.
  - injection H as <-. reflexivity.
  - inversion Hnd as [|? ? Hnotin Hnd']; subst.
    assert (Hk : Category_eqb k key = true ->
                 k = key /\ existsb (Category_eqb k) keys = false).
    { intro E. apply Category_eqb_eq in E. subst k. split; [reflexivity|].
      destruct (existsb (Category_eqb key) keys) eqn:Ex; [|reflexivity].
      apply existsb_exists in Ex. destruct Ex as [x [Hx Ex]].
      apply Category_eqb_eq in Ex. subst x. contradiction. }
    destruct (normalizeCategory data key) as [l|m] eqn:Hn; [|discriminate].
    destruct l as [|it l].
    + rewrite (IH data b b' Hnd' (fun k0 H0 => Hfresh k0 (or_intror H0)) H k).
      destruct (Category_eqb k key) eqn:E; simpl; [|reflexivity].
      destruct (Hk eq_refl) as [-> ->].
      unfold expectedBucket. rewrite Hn. apply Hfresh. now left.
    + assert (Hfresh' : forall k0, In k0 keys ->
                 getBucket (setBucket key (it :: l) b) k0 = None).
      { intros k0 H0. rewrite getBucket_setBucket.
        destruct (Category_eqb k0 key) eqn:E0.
        - apply Category_eqb_eq in E0. subst k0. contradiction.
        - apply Hfresh. now right. }
      rewrite (IH data _ b' Hnd' Hfresh' H k), getBucket_setBucket.
      destruct (Category_eqb k key) eqn:E; simpl; [|reflexivity].
      destruct (Hk eq_refl) as [-> ->].
      unfold expectedBucket. now rewrite Hn.
Qed.

(** X11.  When the normalization runs to its end, the bucket of every
    category is what the items of that category alone normalize to, and is
    absent when none survives: what one category holds has no effect on
    another, so a page cited in two categories gets an item in each. *)
Theorem categories_normalize_independently :
  forall data,
    snd (processStructuredKnowledge data) = Ok tt ->
    forall key,
      getBucket (fst (processStructuredKnowledge data)) key
      = expectedBucket data key.
Proof.
  intros data H key. unfold processStructuredKnowledge in *.
  destruct (processKeys CATEGORIES data []) as [b r] eqn:Hp.
  simpl in *. subst r.
  rewrite (processKeys_buckets CATEGORIES data [] b) with (k := key);
    [now destruct key | | reflexivity | exact Hp].
  unfold CATEGORIES. repeat constructor; simpl; intuition discriminate.
Qed.

Lemma categories_normalize_independently_witness :
  getBucket (fst (processStructuredKnowledge splitData)) parts
  = Some [mkItem (JInt 6) "16 GB RAM"].
Proof.
  exact (categories_normalize_independently splitData eq_refl parts).
Defined.

(** *** The loop that makes every category exist *)

Lemma lookup_replaceKey :
  forall k' v ps k,
    lookup k' ps <> None ->
    lookup k (replaceKey k' v ps)
    = if String.eqb k k' then Some v else lookup k ps.
Proof.
  intros k' v ps k. induction ps as [|[k0 v0] ps IH]; intro H; simpl in *.
  - now elim H.
  - destruct (String.eqb k' k0) eqn:E0; simpl.
    + apply String.eqb_eq in E0. subst k0.
      now destruct (String.eqb k k').
    + destruct (String.eqb k k0) eqn:E1.
      * apply String.eqb_eq in E1. subst k0.
        destruct (String.eqb k k') eqn:E2; [|reflexivity].
        apply String.eqb_eq in E2. subst k'.
        rewrite String.eqb_refl in E0. discriminate.
      * now apply IH.
Qed.

Lemma lookup_append :
  forall k' v ps k,
    lookup k' ps = None ->
    lookup k (ps ++ [(k', v)])%list
    = if String.eqb k k' then Some v else lookup k ps.
Proof.
  intros k' v ps k. induction ps as [|[k0 v0] ps IH]; intro H; simpl in *.
  - reflexivity.
  - destruct (String.eqb k' k0) eqn:E0; [discriminate|].
    destruct (String.eqb k k0) eqn:E1.
    + apply String.eqb_eq in E1. subst k0.
      destruct (String.eqb k k') eqn:E2; [|reflexivity].
      apply String.eqb_eq in E2. subst k'.
      rewrite String.eqb_refl in E0. discriminate.
    + now apply IH.
Qed.

Lemma lookup_setProp :
  forall k' v ps k,
    isIndexKey k' = false ->
    lookup k (setProp k' v ps)
    = if String.eqb k k' then Some v else lookup k ps.
Proof.
  intros k' v ps k Hidx. unfold setProp.
  destruct (lookup k' ps) eqn:E.
  - apply lookup_replaceKey. congruence.
  - rewrite Hidx. now apply lookup_append.
Qed.

Lemma keyOf_inj : forall a b, keyOf a = keyOf b -> a = b.
Proof. intros [] []; simpl; intro H; try reflexivity; discriminate. Qed.

Lemma itemsOf_set :
  forall ps cat key,
    (lookup (keyOf cat) ps = None
     \/ exists v, lookup (keyOf cat) ps = Some v /\ truthy v = false) ->
    itemsOf (setProp (keyOf cat) (JArr []) ps) key = itemsOf ps key.
Proof.
  intros ps cat key H. unfold itemsOf.
  rewrite lookup_setProp by now destruct cat.
  destruct (String.eqb (keyOf key) (keyOf cat)) eqn:E; [|reflexivity].
  apply String.eqb_eq, keyOf_inj in E. subst key. simpl.
  destruct H as [-> | [v [-> ->]]]; reflexivity.
Qed.

Lemma ensure_fold_itemsOf :
  forall cats ps key,
    itemsOf
      (fold_left
         (fun ps cat =>
            match lookup (keyOf cat) ps with
            | Some v => if truthy v then ps else setProp (keyOf cat) (JArr []) ps
            | None => setProp (keyOf cat) (JArr []) ps
            end) cats ps) key
    = itemsOf ps key.
Proof.
  induction cats as [|cat cats IH]; intros ps key; simpl; [reflexivity|].
  rewrite IH.
  destruct (lookup (keyOf cat) ps) as [v|] eqn:E.
  - destruct (truthy v) eqn:Ev; [reflexivity|].
    apply itemsOf_set. right. now exists v.
  - apply itemsOf_set. now left.
Qed.

Lemma normalizeCategory_itemsOf :
  forall ps ps' key,
    itemsOf ps' key = itemsOf ps key ->
    normalizeCategory (JObj ps') key = normalizeCategory (JObj ps) key.
Proof.
  intros ps ps' key H. unfold normalizeCategory, getProp.
  fold (itemsOf ps' key). fold (itemsOf ps key). now rewrite H.
Qed.

Lemma processKeys_ext :
  forall keys d d' b,
    (forall key, normalizeCategory d' key = normalizeCategory d key) ->
    processKeys keys d' b = processKeys keys d b.
Proof.
  induction keys as [|key keys IH]; intros d d' b H; simpl; [reflexivity|].
  rewrite H. destruct (normalizeCategory d key) as [[|it l]|m];
    [apply IH | apply IH | reflexivity]; exact H.
Qed.

(** X12.  Making every category exist before the normalization has no
    effect on its result. *)
Theorem ensured_categories_change_nothing :
  forall structuredData data,
    ensureCategories structuredData = Ok data ->
    processStructuredKnowledge data = processStructuredKnowledge structuredData.
Proof.
  intros sd data H. unfold ensureCategories in H.
  destruct sd as [| | | | |ps]; try discriminate; injection H as <-;
    try reflexivity.
  unfold processStructuredKnowledge. apply processKeys_ext.
  intro key. apply normalizeCategory_itemsOf.
  exact (ensure_fold_itemsOf CATEGORIES ps key).
Qed.

Lemma ensured_categories_change_nothing_witness :
  processStructuredKnowledge
    (JObj [("parts", JArr [JObj [("page", JInt 6); ("text", JStr "16 GB RAM")]]);
           ("warranty", JArr [JObj [("page", JInt 6); ("text", JStr "Two years")]]);
           ("safety", JArr []); ("procedures", JArr []); ("errors", JArr []);
           ("video", JArr [])])
  = processStructuredKnowledge splitData.
Proof.
  exact (ensured_categories_change_nothing splitData _ eq_refl).
Defined.

(** *** Prose around the object *)

Lemma indexOf_brace :
  forall pre rest,
    includes "{" pre = false ->
    indexOf "{" (pre ++ String "{" rest) = Some (String.length pre).
Proof.
  induction pre as [|c pre IH]; intros rest H; [reflexivity|].
  change (includes "{" (String c pre))
    with ((Ascii.eqb "{" c && true) || includes "{" pre) in H.
  apply orb_false_elim in H. destruct H as [Hc Hpre].
  change (indexOf "{" (String c pre ++ String "{" rest))
    with (if Ascii.eqb "{" c && true then Some 0%nat
          else option_map S (indexOf "{" (pre ++ String "{" rest))).
  now rewrite Hc, IH.
Qed.

Lemma lastIndexOf_brace :
  forall x post,
    includes "}" post = false ->
    lastIndexOf "}" (x ++ String "}" post) = Some (String.length x).
Proof.
  induction x as [|c x IH]; intros post H.
  - simpl append.
    change (lastIndexOf "}" (String "}" post))
      with (match lastIndexOf "}" post with
            | Some i => Some (S i)
            | None => Some 0%nat
            end).
    now rewrite (lastIndexOf_none _ _ H).
  - change (lastIndexOf "}" (String c x ++ String "}" post))
      with (match lastIndexOf "}" (x ++ String "}" post) with
            | Some i => Some (S i)
            | None => if startsWith "}" (String c (x ++ String "}" post))
                      then Some 0%nat else None
            end).
    now rewrite IH.
Qed.

(** X9.  When the direct parse fails, text before the first opening brace
    and after the last closing brace is ignored: the result is the parse of
    the text between these braces, repaired if need be. *)
Theorem prose_around_object_is_ignored :
  forall response pre body post,
    stripFences response = pre ++ String "{" (body ++ String "}" post) ->
    includes "{" pre = false ->
    includes "}" post = false ->
    JSON_parse (stripFences response) = None ->
    parseJSONFromResponse response
    = match JSON_parse (String "{" (body ++ "}")) with
      | Some v => Ok v
      | None =>
          match JSON_parse (repair (String "{" (body ++ "}"))) with
          | Some v => Ok v
          | None => Throw unparsableMsg
          end
      end.
Proof.
  intros response pre body post Hs Hpre Hpost Hdirect.
  unfold parseJSONFromResponse. rewrite Hdirect, Hs.
  rewrite (indexOf_brace pre _ Hpre).
  assert (Hlast : lastIndexOf "}" (pre ++ String "{" (body ++ String "}" post))
                  = Some (String.length (pre ++ String "{" body))).
  { replace (pre ++ String "{" (body ++ String "}" post))
      with ((pre ++ String "{" body) ++ String "}" post)
      by (rewrite append_assoc; reflexivity).
    now apply lastIndexOf_brace. }
  rewrite Hlast, length_append. simpl String.length.
  replace (String.length pre + S (String.length body) <=? String.length pre)%nat
    with false by (symmetry; apply Nat.leb_gt; lia).
  rewrite dropChars_append.
  replace (String.length pre + S (String.length body) + 1 - String.length pre)%nat
    with (String.length (String "{" (body ++ "}")) + 0)%nat
    by (simpl; rewrite length_append; simpl; lia).
  replace (String "{" (body ++ String "}" post))
    with (String "{" (body ++ "}") ++ post)
    by (simpl; now rewrite append_assoc).
  assert (Htake : forall a b, takeChars (String.length a + 0) (a ++ b) = a)
    by (intros a b; rewrite Nat.add_0_r; apply takeChars_append).
  rewrite Htake. reflexivity.
Qed.


Lemma prose_around_object_is_ignored_witness :
  parseJSONFromResponse chattyResponse = Ok splitData.
Proof.
  exact (prose_around_object_is_ignored chattyResponse
           "Here is the JSON you asked for: "
           (dropLast 1 (dropChars 1 (stringify splitData)))
           " Hope it helps!"
           eq_refl eq_refl eq_refl eq_refl).
Defined.

(** *** Missing key *)

(** X13.  Without a Gemini key the categorize step fails whatever the
    model would answer, and leaves the state as it was but for the
    processing flag. *)
Theorem no_gemini_key_fails_before_any_call :
  forall st llm compressedPages,
    isEmpty (geminiKey st) = true ->
    categorize st llm compressedPages
    = (withProcessing st false, Throw noObjectMsg).
Proof.
  intros st llm cps Hkey. unfold categorize, fetchStructuredData,
    callGeminiJSON, callGemini.
  rewrite Hkey. reflexivity.
Qed.

Lemma no_gemini_key_fails_before_any_call_witness :
  categorize (mkState "sk-live" "gpt-4o" "" [] [] true) halfBadModel []
  = (mkState "sk-live" "gpt-4o" "" [] [] false, Throw noObjectMsg).
Proof.
  exact (no_gemini_key_fails_before_any_call
           (mkState "sk-live" "gpt-4o" "" [] [] true) halfBadModel [] eq_refl).
Defined.

End CategorizerExtras.

(* ========================================================================= *)
(** ** Further properties of the Retrieval Context Builder *)
(* ========================================================================= *)

Module RetrievalExtras.
Import JsString Json Compression Categorizer Retrieval CategorizerProofs RetrievalProofs CategorizerExtras Notions.

Lemma rawContext_nonempty :
  forall p ps, rawContext (p :: ps) <> "".
Proof.
  intros p ps. unfold rawContext. simpl map.
  assert (Hhead : exists r, renderPage p = String "[" r)
    by (eexists; reflexivity).
  destruct Hhead as [r ->].
  destruct (join_cons_nonempty newline "[" r (map renderPage ps)) as [r' ->].
  discriminate.
Qed.

Lemma concat_all_empty :
  forall (b : Buckets),
    (forall k items, In (k, items) b -> items = []) ->
    List.concat (map snd b) = [].
Proof.
  induction b as [|[k items] b IH]; intro H; simpl; [reflexivity|].
  rewrite (H k items) by now left. simpl.
  apply IH. intros k0 i0 H0. apply (H k0 i0). now right.
Qed.

(** X14.  The context of a chat turn is empty exactly when there are no
    pages and no bucket holds an item. *)
Theorem context_empty_only_without_content :
  forall st category,
    buildContext st category = ""
    <-> (pdfPages st = []
         /\ forall k items, In (k, items) (knowledgeBuckets st) -> items = []).
Proof.
  intros st category. unfold buildContext. cbv zeta.
  fold (categoryContext (knowledgeBuckets st) category).
  split.
  - intro H.
    destruct (isEmpty (categoryContext (knowledgeBuckets st) category)) eqn:E1.
    + destruct (isEmpty (allContext (knowledgeBuckets st))) eqn:E2.
      * simpl in H. split.
        -- destruct (pdfPages st) as [|p ps]; [reflexivity|].
           replace (0 <? Z.of_nat (List.length (p :: ps))) with true in H
             by (symmetry; apply Z.ltb_lt; simpl; lia).
           now apply rawContext_nonempty in H.
        -- intros k items Hin. destruct items as [|i items]; [reflexivity|].
           exfalso.
           apply (allContext_nonempty _ k (i :: items) Hin); [discriminate|].
           now apply isEmpty_true.
      * simpl in H. rewrite H in E2. discriminate.
    + rewrite E1 in H. simpl in H. rewrite H in E1. discriminate.
  - intros [Hp Hb].
    assert (H1 : categoryContext (knowledgeBuckets st) category = "").
    { unfold categoryContext.
      destruct (getBucket (knowledgeBuckets st) category) as [items|] eqn:E;
        [|reflexivity].
      apply getBucket_In in E. now rewrite (Hb _ _ E). }
    assert (H2 : allContext (knowledgeBuckets st) = "").
    { unfold allContext. now rewrite (concat_all_empty _ Hb). }
    rewrite H1, H2, Hp. reflexivity.
Qed.

(** X15.  The detected category depends neither on the letter case of the
    query nor on white space around it. *)
Theorem intent_ignores_case_and_outer_spaces :
  forall st query,
    detectIntent (toLowerCase query) = detectIntent query
    /\ fst (handleChat st (toLowerCase query)) = fst (handleChat st query)
    /\ fst (handleChat st (trim query)) = fst (handleChat st query).
Proof.
  intros st query.
  assert (H : forall q, detectIntent (toLowerCase q) = detectIntent q)
    by (intro q; unfold detectIntent; now rewrite toLowerCase_idem).
  split; [apply H|]. split.
  - unfold handleChat. simpl. unfold trim.
    rewrite trimStart_lower, trimEnd_lower. apply H.
  - unfold handleChat. simpl. now rewrite trim_idem.
Qed.

End RetrievalExtras.

(* ========================================================================= *)
(** ** Properties of the session functions *)
(* ========================================================================= *)

Module SessionExtras.
Import JsString Json Compression Session CategorizerProofs CategorizerExtras Notions.

(** *** Ingestion *)

Lemma pageText_cases :
  forall geminiKey src,
    let extracted :=
      TextStructurer.extractStructuredText (ps_items src) (ps_height src) in
    (String.length extracted <= String.length (pageText geminiKey src))%nat
    /\ (pageText geminiKey src = extracted
        \/ ps_ocr src = Ok (pageText geminiKey src))
    /\ (isEmpty geminiKey = true \/ (100 <= String.length extracted)%nat ->
        pageText geminiKey src = extracted).
Proof.
  intros geminiKey src extracted. unfold pageText. fold extracted.
  destruct (String.length extracted <? 100)%nat eqn:Hlen;
    destruct (isEmpty geminiKey) eqn:Hkey; simpl;
    try (split; [lia | split; [now left | reflexivity]]).
  apply Nat.ltb_lt in Hlen.
  destruct (ps_ocr src) as [ocrText|m] eqn:Hocr.
  - destruct (negb (isEmpty ocrText)
              && (String.length extracted <? String.length ocrText)%nat) eqn:E.
    + apply andb_prop in E. destruct E as [_ E]. apply Nat.ltb_lt in E.
      split; [lia|]. split; [now right|].
      intros [H | H]; [discriminate | lia].
    + split; [lia|]. split; [now left | reflexivity].
  - split; [lia|]. split; [now left | reflexivity].
Qed.

(** X16.  A run of the page loop numbers the pages 1, 2, ... in order; the
    text stored for a page is never shorter than the structured text, is
    that text or the text read from the image, and is the structured text
    when no Gemini key is configured or the structured text has at least 100
    characters. *)
Theorem ingestion_numbers_pages_and_never_shortens :
  forall geminiKey sources,
    map pageNum (ingestPages geminiKey sources)
    = map Z.of_nat (seq 1 (List.length sources))
    /\ Forall2
         (fun page src =>
            let extracted :=
              TextStructurer.extractStructuredText (ps_items src) (ps_height src) in
            (String.length extracted <= String.length (text page))%nat
            /\ (text page = extracted \/ ps_ocr src = Ok (text page))
            /\ (isEmpty geminiKey = true \/ (100 <= String.length extracted)%nat ->
                text page = extracted))
         (ingestPages geminiKey sources) sources.
Proof.
  intros geminiKey sources. unfold ingestPages.
  assert (H : forall srcs i,
             map pageNum (ingestFrom geminiKey (Z.of_nat i) srcs)
             = map Z.of_nat (seq i (List.length srcs))).
  { induction srcs as [|src srcs IH]; intro i; simpl; [reflexivity|].
    f_equal. replace (Z.of_nat i + 1) with (Z.of_nat (S i)) by lia. apply IH. }
  split; [apply (H sources 1%nat)|].
  generalize 1. induction sources as [|src sources IH]; intro i; simpl.
  - constructor.
  - constructor; [apply pageText_cases | apply IH].
Qed.

(** *** Activity log *)

(** X17.  [logActivity] appends the new entry at the end, keeps the earlier
    entries in order dropping only the oldest ones, leaves at most 100
    entries, and drops nothing while the log had fewer than 100. *)
Theorem activity_log_keeps_latest_hundred :
  forall now type description log,
    exists dropped kept,
      log = (dropped ++ kept)%list
      /\ logActivity now type description log
         = (kept ++ [mkActivity now type description])%list
      /\ (List.length (logActivity now type description log) <= 100)%nat
      /\ ((List.length log < 100)%nat -> dropped = []).
Proof.
  intros now type description log. unfold logActivity, lastEntries.
  set (e := mkActivity now type description).
  rewrite length_app. simpl.
  destruct (100 <? List.length log + 1)%nat eqn:E.
  - apply Nat.ltb_lt in E.
    set (n := (List.length log + 1 - 100)%nat).
    exists (firstn n log), (skipn n log).
    assert (Hn : (n <= List.length log)%nat) by (unfold n; lia).
    split; [now rewrite firstn_skipn|]. split; [|split].
    + rewrite skipn_app.
      replace (n - List.length log)%nat with 0%nat by lia. reflexivity.
    + rewrite length_skipn, length_app. simpl. unfold n. lia.
    + intro H. lia.
  - apply Nat.ltb_ge in E.
    exists [], log. split; [reflexivity|]. split; [reflexivity|]. split.
    + rewrite length_app. simpl. lia.
    + reflexivity.
Qed.

(** *** Substrings *)

Lemma startsWith_append : forall p s, startsWith p (p ++ s) = true.
Proof.
  induction p as [|c p IH]; intro s; simpl; [reflexivity|].
  now rewrite Ascii.eqb_refl, IH.
Qed.

Lemma startsWith_split :
  forall p s, startsWith p s = true -> exists post, s = p ++ post.
Proof.
  induction p as [|a p IH]; intros s H; [now exists s|].
  destruct s as [|b s]; [discriminate|]. simpl in H.
  apply andb_prop in H. destruct H as [H1 H2].
  apply Ascii.eqb_eq in H1. subst b.
  destruct (IH s H2) as [post ->]. now exists post.
Qed.

Lemma includes_unfold :
  forall p s,
    includes p s
    = startsWith p s
      || match s with EmptyString => false | String _ r => includes p r end.
Proof. intros p [|c r]; reflexivity. Qed.

Lemma includes_intro :
  forall pre p post, includes p (pre ++ p ++ post) = true.
Proof.
  induction pre as [|c pre IH]; intros p post.
  - simpl append. rewrite includes_unfold, startsWith_append. reflexivity.
  - simpl append. rewrite includes_unfold, IH. apply orb_true_r.
Qed.

Lemma indexOf_split :
  forall p s i,
    indexOf p s = Some i ->
    exists pre post, s = pre ++ p ++ post /\ String.length pre = i.
Proof.
  intros p s. induction s as [|c r IH]; intros i H; simpl in H.
  - destruct (startsWith p "") eqn:E; [|discriminate].
    injection H as <-. destruct (startsWith_split _ _ E) as [post Hp].
    now exists "", post.
  - destruct (startsWith p (String c r)) eqn:E.
    + injection H as <-. destruct (startsWith_split _ _ E) as [post Hp].
      now exists "", post.
    + destruct (indexOf p r) as [j|] eqn:Ej; [|discriminate].
      injection H as <-.
      destruct (IH j eq_refl) as [pre [post [-> Hlen]]].
      exists (String c pre), post. split; [reflexivity | simpl; now rewrite Hlen].
Qed.

Lemma includes_indexOf :
  forall p s, includes p s = true -> exists i, indexOf p s = Some i.
Proof.
  intros p s. induction s as [|c r IH]; intro H; simpl in *.
  - rewrite orb_false_r in H. rewrite H. now exists 0%nat.
  - destruct (startsWith p (String c r)); [now exists 0%nat|].
    destruct (IH H) as [i ->]. now exists (S i).
Qed.

Lemma includes_split :
  forall p s, includes p s = true -> exists pre post, s = pre ++ p ++ post.
Proof.
  intros p s H. destruct (includes_indexOf p s H) as [i Hi].
  destruct (indexOf_split p s i Hi) as [pre [post [Hs _]]]. now exists pre, post.
Qed.

Lemma asciiText_append :
  forall a b, asciiText (a ++ b) = asciiText a && asciiText b.
Proof.
  induction a as [|c a IH]; intro b; simpl; [reflexivity|].
  now rewrite IH, andb_assoc.
Qed.

Lemma asciiText_dropChars :
  forall n s, asciiText s = true -> asciiText (dropChars n s) = true.
Proof.
  induction n as [|n IH]; intros [|c r] H; simpl; try assumption.
  apply asciiText_cons in H. now apply IH.
Qed.

Lemma asciiText_takeChars :
  forall n s, asciiText s = true -> asciiText (takeChars n s) = true.
Proof.
  induction n as [|n IH]; intros [|c r] H; simpl; try reflexivity.
  apply asciiText_cons in H. destruct H as [Hc Hr].
  rewrite Hc. now apply IH.
Qed.

Lemma lower_append :
  forall a b,
    asciiText a = true -> asciiText b = true ->
    toLowerCase (a ++ b) = toLowerCase a ++ toLowerCase b.
Proof.
  induction a as [|c a IH]; intros b Ha Hb; simpl; [reflexivity|].
  apply asciiText_cons in Ha. now rewrite IH.
Qed.

Lemma lower_takeChars :
  forall n s,
    asciiText s = true ->
    toLowerCase (takeChars n s) = takeChars n (toLowerCase s).
Proof.
  induction n as [|n IH]; intros [|c r] H; simpl; try reflexivity.
  apply asciiText_cons in H. now rewrite IH.
Qed.

Lemma lower_dropChars :
  forall n s,
    asciiText s = true ->
    toLowerCase (dropChars n s) = dropChars n (toLowerCase s).
Proof.
  induction n as [|n IH]; intros [|c r] H; simpl; try reflexivity.
  apply asciiText_cons in H. now apply IH.
Qed.

Lemma dropChars_append_le :
  forall n a b,
    (n <= String.length a)%nat -> dropChars n (a ++ b) = dropChars n a ++ b.
Proof.
  induction n as [|n IH]; intros a b H; [reflexivity|].
  destruct a as [|c a]; simpl in *; [lia|]. apply IH. lia.
Qed.

Lemma takeChars_append_ge :
  forall a n b, takeChars (String.length a + n) (a ++ b) = a ++ takeChars n b.
Proof.
  induction a as [|c a IH]; intros n b; simpl; [reflexivity | now rewrite IH].
Qed.

Lemma length_takeChars :
  forall n s, (String.length (takeChars n s) <= n)%nat.
Proof.
  induction n as [|n IH]; intros [|c r]; simpl; try lia.
  specialize (IH r). lia.
Qed.

Lemma length_dropChars :
  forall n s, String.length (dropChars n s) = (String.length s - n)%nat.
Proof.
  induction n as [|n IH]; intros [|c r]; simpl; try lia. apply IH.
Qed.

Lemma includes_trans :
  forall a b s, includes a b = true -> includes b s = true -> includes a s = true.
Proof.
  intros a b s Hab Hbs.
  destruct (includes_split _ _ Hab) as [p1 [q1 ->]].
  destruct (includes_split _ _ Hbs) as [p2 [q2 ->]].
  replace (p2 ++ (p1 ++ a ++ q1) ++ q2) with ((p2 ++ p1) ++ a ++ (q1 ++ q2))
    by (now rewrite !append_assoc).
  apply includes_intro.
Qed.

Lemma includes_wrap :
  forall p a s b, includes p s = true -> includes p (a ++ s ++ b) = true.
Proof.
  intros p a s b H. destruct (includes_split _ _ H) as [pre [post ->]].
  replace (a ++ (pre ++ p ++ post) ++ b) with ((a ++ pre) ++ p ++ (post ++ b))
    by (now rewrite !append_assoc).
  apply includes_intro.
Qed.

(** *** Search *)

Lemma substring_excerpt :
  forall a b s, includes (substring a b s) s = true.
Proof.
  intros a b s. unfold substring.
  assert (Hdrop : forall n t, exists pre, t = pre ++ dropChars n t).
  { induction n as [|n IH]; intros [|c r]; simpl;
      try (now exists "").
    destruct (IH r) as [pre Hpre]. exists (String c pre). simpl.
    now rewrite <- Hpre. }
  destruct (Hdrop a s) as [pre Hpre].
  destruct (RetrievalProofs.takeChars_prefix (b - a) (dropChars a s)) as [[rest Hrest] _].
  rewrite Hpre at 2. rewrite Hrest at 2. apply includes_intro.
Qed.

Lemma snippet_shows_match :
  forall lq t idx,
    asciiText t = true ->
    indexOf lq (toLowerCase t) = Some idx ->
    (String.length lq <= 100)%nat ->
    includes lq (toLowerCase (substring (idx - 50) (idx + 100) t)) = true.
Proof.
  intros lq t idx Hascii Hidx Hlen. unfold substring.
  rewrite lower_takeChars by now apply asciiText_dropChars.
  rewrite lower_dropChars by exact Hascii.
  destruct (indexOf_split _ _ _ Hidx) as [pre [post [-> Hpre]]].
  rewrite dropChars_append_le by lia.
  set (pre2 := dropChars (idx - 50) pre).
  assert (Hp2 : String.length pre2 = (idx - (idx - 50))%nat)
    by (unfold pre2; rewrite length_dropChars; lia).
  replace (idx + 100 - (idx - 50))%nat with (String.length pre2 + 100)%nat by lia.
  rewrite takeChars_append_ge.
  replace 100%nat with (String.length lq + (100 - String.length lq))%nat
    at 1 by lia.
  rewrite takeChars_append_ge. apply includes_intro.
Qed.

(** X18.  Every search result comes from a page of a manual of the library
    whose lower-cased text contains the lower-cased query, and carries the
    id and name of the manual and the number of the page; its snippet is an
    excerpt of the text of the page between two ellipses and is at most 156
    characters long.  When the text of the page is ASCII and the lower-cased
    query has at most 100 characters, the lower-cased snippet contains the
    lower-cased query. *)
Theorem search_snippet_shows_match :
  forall library query r,
    In r (crossSearchResults library query) ->
    (String.length (sr_snippet r) <= 156)%nat
    /\ exists m p,
         In m library /\ In p (m_pages m)
         /\ sr_manualId r = m_id m /\ sr_manualName r = m_name m
         /\ sr_pageNum r = pageNum p
         /\ includes (toLowerCase query) (toLowerCase (text p)) = true
         /\ (exists excerpt,
               includes excerpt (text p) = true
               /\ sr_snippet r = "..." ++ excerpt ++ "...")
         /\ (asciiText (text p) = true ->
             (String.length (toLowerCase query) <= 100)%nat ->
             includes (toLowerCase query) (toLowerCase (sr_snippet r)) = true).
Proof.
  intros library query r Hin. unfold crossSearchResults in Hin.
  apply in_flat_map in Hin. destruct Hin as [m [Hm Hin]].
  apply in_flat_map in Hin. destruct Hin as [p [Hp Hin]].
  unfold pageResult in Hin.
  destruct (includes (toLowerCase query) (toLowerCase (text p))) eqn:Hinc;
    [|contradiction].
  destruct Hin as [<- | []].
  cbn [sr_snippet sr_manualId sr_manualName sr_pageNum].
  destruct (includes_indexOf _ _ Hinc) as [idx Hidx]. rewrite Hidx.
  set (dots := "...").
  set (excerpt := substring (idx - 50) (idx + 100) (text p)).
  split.
  - rewrite !length_append. unfold excerpt, substring.
    pose proof (length_takeChars (idx + 100 - (idx - 50))
                  (dropChars (idx - 50) (text p))).
    change (String.length dots) with 3%nat. lia.
  - exists m, p. repeat (split; [assumption || reflexivity|]). split.
    + exists excerpt. split; [apply substring_excerpt | reflexivity].
    + intros Hascii Hlen.
      assert (Hex : asciiText excerpt = true)
        by (unfold excerpt, substring;
            now apply asciiText_takeChars, asciiText_dropChars).
      rewrite lower_append;
        [|reflexivity|rewrite asciiText_append, Hex; reflexivity].
      rewrite lower_append; [|exact Hex|reflexivity].
      apply includes_wrap.
      now apply snippet_shows_match.
Qed.

Lemma search_snippet_shows_match_witness :
  (String.length "...The Warranty covers two years...." <= 156)%nat
  /\ exists m p,
       In m sampleLibrary /\ In p (m_pages m)
       /\ "1700000000000" = m_id m /\ "Drill X1" = m_name m
       /\ 2 = pageNum p
       /\ includes (toLowerCase "WARRANTY") (toLowerCase (text p)) = true
       /\ (exists excerpt,
             includes excerpt (text p) = true
             /\ "...The Warranty covers two years...." = "..." ++ excerpt ++ "...")
       /\ (asciiText (text p) = true ->
           (String.length (toLowerCase "WARRANTY") <= 100)%nat ->
           includes (toLowerCase "WARRANTY")
                    (toLowerCase "...The Warranty covers two years....") = true).
Proof.
  exact (search_snippet_shows_match sampleLibrary "WARRANTY"
           (mkSearchResult "1700000000000" "Drill X1" 2
              "...The Warranty covers two years....")
           (or_introl eq_refl)).
Defined.

(** *** Page filter *)

(** X19.  A page shown for a query is shown for every query contained in
    it, as typed and in lower case: shortening the query this way never
    hides a page. *)
Theorem narrower_query_shows_fewer_pages :
  forall pdfPages gallery q q',
    includes q q' = true ->
    includes (toLowerCase q) (toLowerCase q') = true ->
    forall n,
      In (n, true) (filterPages pdfPages gallery q') ->
      In (n, true) (filterPages pdfPages gallery q).
Proof.
  intros pdfPages gallery q q' Hq Hlq n Hin. unfold filterPages in *.
  apply in_map_iff in Hin. destruct Hin as [n0 [Heq Hn0]].
  injection Heq as -> Hshown.
  apply in_map_iff. exists n. split; [|exact Hn0]. f_equal.
  apply orb_true_iff in Hshown. apply orb_true_iff.
  destruct Hshown as [H | H].
  - left. eapply includes_trans; eauto.
  - right. destruct (find (fun p => pageNum p =? n) pdfPages) as [p|];
      [|discriminate].
    eapply includes_trans; [exact Hlq | exact H].
Qed.

Lemma narrower_query_shows_fewer_pages_witness :
  In (2, true)
     (filterPages [mkPage 1 "Cover"; mkPage 2 "The Warranty covers two years."]
                  [1; 2] "Warr").
Proof.
  apply (narrower_query_shows_fewer_pages
           [mkPage 1 "Cover"; mkPage 2 "The Warranty covers two years."]
           [1; 2] "Warr" "Warranty" eq_refl eq_refl 2).
  right. now left.
Defined.

(** *** Annotations *)

Lemma filter_all :
  forall {A : Type} (f : A -> bool) l,
    Forall (fun a => f a = true) l -> filter f l = l.
Proof.
  intros A f l H. induction H as [|a l Ha Hl IH]; simpl; [reflexivity|].
  now rewrite Ha, IH.
Qed.

(** X20.  Deleting the annotation just saved on a page, whose id no other
    annotation of the page bears, gives that page its previous annotations
    and leaves the other pages as they were. *)
Theorem delete_undoes_save :
  forall now page fields store,
    let before := match store page with Some l => l | None => [] end in
    Forall (fun a => an_id a <> now) before ->
    exists store',
      deleteAnnotation page now (saveAnnotation now page fields store) = Ok store'
      /\ store' page = Some before
      /\ forall k, k <> page -> store' k = store k.
Proof.
  intros now page fields store before Hfresh.
  unfold deleteAnnotation, saveAnnotation. fold before.
  rewrite Z.eqb_refl. eexists. split; [reflexivity|]. split.
  - simpl. rewrite Z.eqb_refl. f_equal.
    rewrite filter_app. simpl. rewrite Z.eqb_refl. simpl.
    rewrite app_nil_r. apply filter_all.
    eapply Forall_impl; [|exact Hfresh]. intros a Ha. simpl in *.
    destruct (Z.eqb_spec (an_id a) now); [contradiction | reflexivity].
  - intros k Hk. simpl.
    destruct (Z.eqb_spec k page); [contradiction | reflexivity].
Qed.

Lemma delete_undoes_save_witness :
  exists store',
    deleteAnnotation 3 1700000000500
      (saveAnnotation 1700000000500 3 [("type", JStr "marker")]
         (fun k => if k =? 3 then Some [mkAnnotation 1700000000000 []] else None))
    = Ok store'
    /\ store' 3 = Some [mkAnnotation 1700000000000 []]
    /\ forall k, k <> 3 ->
                 store' k = (if k =? 3 then Some [mkAnnotation 1700000000000 []]
                             else None).
Proof.
  apply (delete_undoes_save 1700000000500 3 [("type", JStr "marker")]
           (fun k => if k =? 3 then Some [mkAnnotation 1700000000000 []] else None)).
  simpl. constructor; [discriminate | constructor].
Defined.

(** *** Library *)

Lemma find_filter_other :
  forall id id' (lib : list Manual),
    id' <> id ->
    find (fun m => String.eqb (m_id m) id')
         (filter (fun m => negb (String.eqb (m_id m) id)) lib)
    = find (fun m => String.eqb (m_id m) id') lib.
Proof.
  intros id id' lib Hne. induction lib as [|m lib IH]; simpl; [reflexivity|].
  destruct (String.eqb (m_id m) id) eqn:E; simpl.
  - apply String.eqb_eq in E.
    destruct (String.eqb (m_id m) id') eqn:E'; [|exact IH].
    apply String.eqb_eq in E'. congruence.
  - destruct (String.eqb (m_id m) id'); [reflexivity | exact IH].
Qed.

Lemma find_filter_same :
  forall id (lib : list Manual),
    find (fun m => String.eqb (m_id m) id)
         (filter (fun m => negb (String.eqb (m_id m) id)) lib) = None.
Proof.
  intros id lib. induction lib as [|m lib IH]; simpl; [reflexivity|].
  destruct (String.eqb (m_id m) id) eqn:E; simpl; [exact IH|].
  now rewrite E.
Qed.

Lemma manualLibrary_deleteManual :
  forall id st,
    manualLibrary (deleteManual true id st)
    = filter (fun m => negb (String.eqb (m_id m) id)) (manualLibrary st).
Proof.
  intros id st. unfold deleteManual. simpl.
  destruct (currentManualId st) as [cur|]; [|reflexivity].
  now destruct (String.eqb cur id).
Qed.

(** X21.  After a confirmed [deleteManual] the manual can no longer be
    loaded and is not the current one, while loading any other manual starts
    the same extraction as before. *)
Theorem deleted_manual_cannot_be_loaded :
  forall id id' st,
    loadManual id (deleteManual true id st) = (deleteManual true id st, None)
    /\ currentManualId (deleteManual true id st) <> Some id
    /\ (id' <> id ->
        snd (loadManual id' (deleteManual true id st)) = snd (loadManual id' st)).
Proof.
  intros id id' st. split; [|split].
  - unfold loadManual.
    now rewrite manualLibrary_deleteManual, find_filter_same.
  - unfold deleteManual. simpl.
    destruct (currentManualId st) as [cur|]; [|discriminate].
    destruct (String.eqb cur id) eqn:E; simpl; [discriminate|].
    intro H. injection H as ->. now rewrite String.eqb_refl in E.
  - intro Hne. unfold loadManual.
    rewrite manualLibrary_deleteManual, find_filter_other by exact Hne.
    now destruct (find _ (manualLibrary st)).
Qed.

End SessionExtras.
